(** * Scheduling core of the social calendar: a shallow embedding

    Three TypeScript classes are embedded, one module each:
    - [Estimator]    : [DurationEstimator]      (src/lib/nlp/duration-estimator.ts)
    - [Availability] : [AvailabilityCalculator] (the availability calculator)
    - [Conflicts]    : [ConflictDetector]       (the conflict detector)

    Conventions shared by the three modules.
    - A JS [Date] is its [getTime()] value, a [Z] number of milliseconds since
      the epoch.  Local time is UTC, so [getHours], [getDay], [setHours] and
      date-fns' [addDays] are plain arithmetic on that number.
    - A JS string is a [string] whose characters are the code units 0..255.
    - JS numbers that hold fractions (multipliers, scores) are exact rationals
      [Q]; the IEEE rounding of the source is not represented.  Integer-valued
      numbers (minutes, milliseconds, counts) are [Z] or [nat].
    - [Array.prototype.sort] is stable; it is embedded as a stable insertion
      sort, which returns the same array as any other stable sort. *)

From Stdlib Require Import ZArith QArith Qround String Ascii List Sorted Lia Lqa Bool.
From stdpp Require Import base gmap strings.
Import ListNotations.

Local Open Scope Z_scope.

(** ** Helpers standing for the JS built-ins used by the source *)

Module Js.

(** [s.includes(sub)] *)
Fixpoint includes (s sub : string) : bool :=
  String.prefix sub s ||
  match s with
  | EmptyString => false
  | String _ s' => includes s' sub
  end.

(** The class [\s] of JS regular expressions, on code units 0..255. *)
Definition isSpace (c : ascii) : bool :=
  let n := nat_of_ascii c in
  ((9 <=? n) && (n <=? 13))%nat || (n =? 32)%nat || (n =? 160)%nat.

(** The class [\d]. *)
Definition isDigit (c : ascii) : bool :=
  let n := nat_of_ascii c in ((48 <=? n) && (n <=? 57))%nat.

(** [String.prototype.toLowerCase] on code units 0..255: A-Z, and the
    Latin-1 capitals U+00C0..U+00DE except the multiplication sign. *)
Definition lowerChar (c : ascii) : ascii :=
  let n := nat_of_ascii c in
  if ((65 <=? n) && (n <=? 90))%nat
     || ((192 <=? n) && (n <=? 222) && negb (n =? 215))%nat
  then ascii_of_nat (n + 32) else c.

Fixpoint toLowerCase (s : string) : string :=
  match s with
  | EmptyString => EmptyString
  | String c s' => String (lowerChar c) (toLowerCase s')
  end.

(** [s.split(/\s+/)]: [cur] is the piece being read and [inWs] tells that the
    previous character belonged to a separator.  A separator at either end of
    the text leaves an empty piece there, as in JS. *)
Fixpoint splitWs (s cur : string) (inWs : bool) : list string :=
  match s with
  | EmptyString => [cur]
  | String c s' =>
      if isSpace c
      then (if inWs then splitWs s' EmptyString true
            else cur :: splitWs s' EmptyString true)
      else splitWs s' (cur +:+ String c EmptyString) false
  end.

Definition split_whitespace (s : string) : list string :=
  splitWs s EmptyString false.

(** [parseInt] of a string of decimal digits. *)
Fixpoint parseDigits (s : string) (acc : Z) : Z :=
  match s with
  | EmptyString => acc
  | String c s' => parseDigits s' (10 * acc + (Z.of_nat (nat_of_ascii c) - 48))
  end.

Definition parseInt (s : string) : Z := parseDigits s 0.

(** [Math.round]: the nearest integer, halves going up. *)
Definition round (q : Q) : Z := Qfloor (q + (1 # 2)).

(** [Math.ceil] *)
Definition ceil (q : Q) : Z := Qceiling q.

Definition Qlt_bool (x y : Q) : bool := negb (Qle_bool y x).

(** One field of an object spread [{ ...defaults, ...options }]: the value
    of [options] when the field is present there, that of [defaults]
    otherwise. *)
Definition orElse {A} (x y : option A) : option A :=
  match x with Some _ => x | None => y end.

(** A stable sort: [le a b] says that the comparator is [<= 0] on [(a, b)],
    so that [a] may stay in front of [b]. *)
Section Sort.
Context {A : Type} (le : A -> A -> bool).

Fixpoint insert_sorted (x : A) (l : list A) : list A :=
  match l with
  | [] => [x]
  | y :: l' => if le x y then x :: y :: l' else y :: insert_sorted x l'
  end.

Fixpoint sort (l : list A) : list A :=
  match l with
  | [] => []
  | x :: l' => insert_sorted x (sort l')
  end.

End Sort.

End Js.

(** ** DurationEstimator *)

Module Estimator.
Import Js.
Local Open Scope string_scope.
Local Open Scope Z_scope.

Record TaskPattern := {
  keywords : list string;
  baseMinutes : Z;
  multipliers : option (list (string * Q))
}.

Definition patterns : list TaskPattern :=
  [ (* Meetings and calls *)
    {| keywords := ["meeting"; "call"; "standup"; "sync"; "check-in"; "discussion"];
       baseMinutes := 30;
       multipliers := Some
         [("quick", 1#2); ("brief", 1#2); ("short", 1#2); ("long", 2#1);
          ("extended", 5#2); ("all-day", 8#1); ("team", 3#2); ("client", 3#2)] |};
    (* Development tasks *)
    {| keywords := ["code"; "develop"; "implement"; "build"; "create"; "program";
                    "debug"; "fix"];
       baseMinutes := 120;
       multipliers := Some
         [("simple", 1#2); ("basic", 1#2); ("quick", 1#2); ("complex", 2#1);
          ("advanced", 5#2); ("refactor", 3#2); ("prototype", 4#5);
          ("production", 2#1)] |};
    (* Research and analysis *)
    {| keywords := ["research"; "analyze"; "investigate"; "study"; "explore"; "learn"];
       baseMinutes := 90;
       multipliers := Some
         [("quick", 1#2); ("deep", 2#1); ("thorough", 2#1); ("comprehensive", 3#1);
          ("preliminary", 7#10)] |};
    (* Documentation *)
    {| keywords := ["document"; "write"; "documentation"; "readme"; "manual"; "guide"];
       baseMinutes := 60;
       multipliers := Some
         [("quick", 1#2); ("brief", 1#2); ("detailed", 2#1); ("comprehensive", 3#1);
          ("technical", 3#2)] |};
    (* Design tasks *)
    {| keywords := ["design"; "mockup"; "wireframe"; "prototype"; "ui"; "ux"];
       baseMinutes := 90;
       multipliers := Some
         [("simple", 7#10); ("complex", 2#1); ("detailed", 3#2);
          ("high-fidelity", 2#1); ("low-fidelity", 4#5)] |};
    (* Testing *)
    {| keywords := ["test"; "testing"; "qa"; "review"; "validate"];
       baseMinutes := 45;
       multipliers := Some
         [("quick", 1#2); ("thorough", 2#1); ("comprehensive", 5#2); ("unit", 4#5);
          ("integration", 3#2); ("e2e", 2#1)] |};
    (* Administrative tasks *)
    {| keywords := ["email"; "admin"; "administrative"; "paperwork"; "form";
                    "application"];
       baseMinutes := 20;
       multipliers := Some [("quick", 1#2); ("detailed", 3#2); ("complex", 2#1)] |};
    (* Presentations *)
    {| keywords := ["presentation"; "present"; "demo"; "showcase"; "pitch"];
       baseMinutes := 45;
       multipliers := Some
         [("prepare", 3#1); ("create", 4#1); ("deliver", 1#1); ("practice", 3#2)] |}
  ].

Definition commonMultipliers : list (string * Q) :=
  [ (* Size indicators *)
    ("small", 1#2); ("large", 2#1); ("huge", 3#1); ("tiny", 3#10); ("massive", 4#1);
    (* Urgency indicators *)
    ("urgent", 4#5); ("asap", 4#5); ("rush", 7#10);
    (* Complexity indicators *)
    ("simple", 3#5); ("easy", 1#2); ("hard", 2#1); ("difficult", 5#2);
    ("challenging", 2#1);
    (* Time indicators *)
    ("hour", 1#1); ("hours", 2#1); ("day", 8#1); ("days", 16#1); ("week", 40#1);
    ("month", 160#1) ].

(** [calculateMatchScore]: the fraction of the keywords that contain, or are
    contained in, one of the words.  For an empty keyword list the source
    divides 0 by 0 and returns NaN, where the quotient is 0 here; none of the
    patterns has an empty list. *)
Definition keywordHit (words : list string) (keyword : string) : bool :=
  existsb (fun word => includes word keyword || includes keyword word) words.

Definition calculateMatchScore (words keywords : list string) : Q :=
  let score := fold_left (fun sc keyword =>
                 if keywordHit words keyword then sc + 1 else sc) keywords 0 in
  Qmake score 1 / Qmake (Z.of_nat (length keywords)) 1.

(** The loop that keeps the first pattern of strictly highest score. *)
Definition findBestMatch (words : list string) : option TaskPattern * Q :=
  fold_left (fun (st : option TaskPattern * Q) pattern =>
               let score := calculateMatchScore words (keywords pattern) in
               if Qlt_bool (snd st) score then (Some pattern, score) else st)
            patterns (None, 0%Q).

(** One of the two loops over [Object.entries]: every keyword found in the
    text multiplies the running product. *)
Definition applyMultipliers (text : string) (table : list (string * Q)) (m : Q) : Q :=
  fold_left (fun acc (kv : string * Q) =>
               if includes text (fst kv) then (acc * snd kv)%Q else acc) table m.

(** The regular expressions of [extractTimeIndicators] all have the shape
    [(\d+)\s*(u1|u2)s?] with [u1], [u2] words of letters.  At a given start
    the greedy run of digits and the greedy run of spaces either lead to a
    unit or the attempt fails: giving a digit or a space back leaves a digit
    or a space in front of the unit.  [matchAt] is one attempt and returns
    the first capture group; [regexMatch] tries the starts from left to right
    as [String.prototype.match] does. *)
Fixpoint takeDigits (s : string) : string * string :=
  match s with
  | EmptyString => (EmptyString, EmptyString)
  | String c s' =>
      if isDigit c
      then let (ds, rest) := takeDigits s' in (String c ds, rest)
      else (EmptyString, s)
  end.

Fixpoint dropSpaces (s : string) : string :=
  match s with
  | EmptyString => EmptyString
  | String c s' => if isSpace c then dropSpaces s' else s
  end.

Definition matchAt (units : list string) (s : string) : option string :=
  let (ds, rest) := takeDigits s in
  match ds with
  | EmptyString => None
  | _ => if existsb (fun u => String.prefix u (dropSpaces rest)) units
         then Some ds else None
  end.

Fixpoint regexMatch (units : list string) (s : string) : option string :=
  match matchAt units s with
  | Some ds => Some ds
  | None => match s with
            | EmptyString => None
            | String _ s' => regexMatch units s'
            end
  end.

Definition timePatterns : list (list string * Z) :=
  [ (["minute"; "min"], 1);
    (["hour"; "hr"], 60);
    (["day"], 480);      (* 8-hour work day *)
    (["week"], 2400) ].  (* 5-day work week *)

Fixpoint firstTimeMatch (text : string) (ps : list (list string * Z)) : option Z :=
  match ps with
  | [] => None
  | (units, multiplier) :: ps' =>
      match regexMatch units text with
      | Some ds => Some (parseInt ds * multiplier)
      | None => firstTimeMatch text ps'
      end
  end.

Definition extractTimeIndicators (text : string) : option Z :=
  firstTimeMatch text timePatterns.

Definition technicalTerms : list string :=
  ["api"; "database"; "server"; "deploy"; "infrastructure";
   "architecture"; "framework"; "integration"; "migration";
   "optimization"; "performance"; "security"; "scalability"].

Definition calculateComplexityMultiplier (text : string) (wordCount : nat) : Q :=
  let m0 := 1%Q in
  let m1 := if (20 <? wordCount)%nat then (m0 * (13#10))%Q else m0 in
  let m2 := if (50 <? wordCount)%nat then (m1 * (3#2))%Q else m1 in
  let technicalMatches := List.filter (fun term => includes text term) technicalTerms in
  let m3 := if (0 <? length technicalMatches)%nat
            then (m2 * (1 + Qmake (Z.of_nat (length technicalMatches)) 1 * (1#5)))%Q
            else m2 in
  let m4 := if includes text "step" || includes text "phase" || includes text "stage"
            then (m3 * (7#5))%Q else m3 in
  let m5 := if includes text "team" || includes text "collaborate"
               || includes text "coordinate"
            then (m4 * (13#10))%Q else m4 in
  m5.

(** The text on which every method works: title, a space, and the
    description when there is one. *)
Definition fullText (title : string) (description : option string) : string :=
  toLowerCase (title +:+ " " +:+ default "" description).

(** The value computed when no explicit duration cuts the computation
    short: [Math.round(baseEstimate * totalMultiplier)].  The source builds
    the product of the two keyword tables before it looks for an explicit
    duration and uses it only afterwards; nothing is observable in between. *)
Definition heuristicEstimate (text : string) : Z :=
  let words := split_whitespace text in
  let bestMatch := fst (findBestMatch words) in
  let baseEstimate := match bestMatch with Some p => baseMinutes p | None => 60 end in
  let totalMultiplier := 1%Q in
  let totalMultiplier :=
    match bestMatch with
    | Some p => match multipliers p with
                | Some table => applyMultipliers text table totalMultiplier
                | None => totalMultiplier
                end
    | None => totalMultiplier
    end in
  let totalMultiplier := applyMultipliers text commonMultipliers totalMultiplier in
  let totalMultiplier :=
    (totalMultiplier * calculateComplexityMultiplier text (length words))%Q in
  round (Qmake baseEstimate 1 * totalMultiplier).

(** [if (timeMatch)]: the number 0 is falsy. *)
Definition truthy (n : Z) : bool := negb (n =? 0)%Z.

Definition estimateDuration (title : string) (description : option string) : Z :=
  let text := fullText title description in
  match extractTimeIndicators text with
  | Some timeMatch =>
      if truthy timeMatch then timeMatch
      else Z.max 5 (Z.min 480 (heuristicEstimate text))
  | None => Z.max 5 (Z.min 480 (heuristicEstimate text))
  end.

Inductive Confidence := low | medium | high.

(** The result of [getEstimationExplanation].  The two lines of [reasoning]
    are renderings of [matchedKeywords] with the base minutes (present when
    a pattern matched) and of [appliedMultipliers] (present when the list is
    not empty); the record keeps what the lines are rendered from. *)
Record Explanation := {
  estimate : Z;
  matchedKeywords : option (list string * Z);
  appliedMultipliers : list (string * Q);
  confidence : Confidence
}.

Definition foundMultipliers (text : string) (table : list (string * Q))
    : list (string * Q) :=
  List.filter (fun kv : string * Q => includes text (fst kv)) table.

Definition getEstimationExplanation (title : string) (description : option string)
    : Explanation :=
  let estimate := estimateDuration title description in
  let text := fullText title description in
  let words := split_whitespace text in
  let '(bestMatch, matchScore) := findBestMatch words in
  let matched :=
    match bestMatch with
    | Some p => Some (List.filter (keywordHit words) (keywords p), baseMinutes p)
    | None => None
    end in
  let applied :=
    (match bestMatch with
     | Some p => match multipliers p with
                 | Some table => foundMultipliers text table
                 | None => []
                 end
     | None => []
     end ++ foundMultipliers text commonMultipliers)%list in
  (* Determine confidence *)
  let confidence := low in
  let confidence := if Qlt_bool (1#2) matchScore then medium else confidence in
  let confidence :=
    if Qlt_bool (4#5) matchScore
       || match extractTimeIndicators text with
          | Some timeMatch => truthy timeMatch
          | None => false
          end
    then high else confidence in
  let confidence :=
    if (10 <? length words)%nat
    then match confidence with low => medium | _ => high end
    else confidence in
  {| estimate := estimate;
     matchedKeywords := matched;
     appliedMultipliers := applied;
     confidence := confidence |}.

End Estimator.

(** ** AvailabilityCalculator *)

Module Availability.
Import Js.

Definition MS_PER_MINUTE : Z := 60000.
Definition MS_PER_HOUR : Z := 3600000.
Definition MS_PER_DAY : Z := 86400000.

(** date-fns and [Date] primitives, local time being UTC. *)
Definition addMinutes (date amount : Z) : Z := date + amount * MS_PER_MINUTE.
Definition addDays (date amount : Z) : Z := date + amount * MS_PER_DAY.
Definition isBefore (a b : Z) : bool := a <? b.
Definition isAfter (a b : Z) : bool := a >? b.
Definition getDay (date : Z) : Z := (date / MS_PER_DAY + 4) mod 7.
Definition getHours (date : Z) : Z := (date mod MS_PER_DAY) / MS_PER_HOUR.
Definition getMinutes (date : Z) : Z := (date mod MS_PER_HOUR) / MS_PER_MINUTE.

(** [isWithinInterval] of date-fns 3 and later: both ends belong to the
    interval, and the two ends are put in order first. *)
Definition isWithinInterval (date istart iend : Z) : bool :=
  (Z.min istart iend <=? date) && (date <=? Z.max istart iend).

Record TimeSlot := { start : Z; end_ : Z }.

(** [WorkingHours]: the fields [start] and [end] hold the pair
    [timeString.split(':').map(Number)] of the source's "HH:mm" strings. *)
Record WorkingHours := {
  whStart : Z * Z;
  whEnd : Z * Z;
  days : list Z
}.

Record AvailabilityOptions := {
  workingHours : option WorkingHours;
  bufferMinutes : option Z;
  minMeetingDuration : option Z;
  maxMeetingDuration : option Z
}.

(** [workingHours] is a required field of the interface, and
    [user.workingHours || this.defaultWorkingHours] is the field itself; the
    optional [timeZone], which no method reads, is left out. *)
Record UserAvailability := {
  userId : string;
  name : string;
  email : string;
  busySlots : list TimeSlot;
  userWorkingHours : WorkingHours
}.

Record MeetingSuggestion := {
  sugStart : Z;
  sugEnd : Z;
  duration : Z;
  availableParticipants : list string;
  confidence : Q;
  score : Q
}.

Definition defaultWorkingHours : WorkingHours :=
  {| whStart := (9, 0); whEnd := (17, 0); days := [1; 2; 3; 4; 5] |}.

Definition defaultOptions : AvailabilityOptions :=
  {| workingHours := None;
     bufferMinutes := Some 15;
     minMeetingDuration := Some 30;
     maxMeetingDuration := Some 120 |}.

Definition noOptions : AvailabilityOptions :=
  {| workingHours := None; bufferMinutes := None;
     minMeetingDuration := None; maxMeetingDuration := None |}.

(** [{ ...defaults, ...options }]: a field present in [options] wins. *)
Definition mergeOptions (defaults options : AvailabilityOptions) : AvailabilityOptions :=
  {| workingHours := orElse (workingHours options) (workingHours defaults);
     bufferMinutes := orElse (bufferMinutes options) (bufferMinutes defaults);
     minMeetingDuration :=
       orElse (minMeetingDuration options) (minMeetingDuration defaults);
     maxMeetingDuration :=
       orElse (maxMeetingDuration options) (maxMeetingDuration defaults) |}.

Definition parseTimeOnDate (time : Z * Z) (date : Z) : Z :=
  (date / MS_PER_DAY) * MS_PER_DAY + fst time * MS_PER_HOUR + snd time * MS_PER_MINUTE.

Definition includesDay (ds : list Z) (d : Z) : bool := existsb (Z.eqb d) ds.

(** The loop [for (i = 0; i < sortedBusy.length - 1; i++)] over the pairs of
    neighbours. *)
Fixpoint gapsBetween (sortedBusy : list TimeSlot) (bufferMinutes : Z) : list TimeSlot :=
  match sortedBusy with
  | current :: ((next :: _) as rest) =>
      let freeStart := addMinutes (end_ current) bufferMinutes in
      let freeEnd := addMinutes (start next) (- bufferMinutes) in
      (if isBefore freeStart freeEnd
       then [ {| start := freeStart; end_ := freeEnd |} ] else [])
      ++ gapsBetween rest bufferMinutes
  | _ => []
  end.

Definition touchesWindow (dayStart dayEnd : Z) (slot : TimeSlot) : bool :=
  isWithinInterval (start slot) dayStart dayEnd
  || isWithinInterval (end_ slot) dayStart dayEnd.

Definition findFreeSlotsInDay
    (busy : list TimeSlot) (dayStart dayEnd bufferMinutes : Z) : list TimeSlot :=
  let sortedBusy :=
    sort (fun a b => start a <=? start b)
         (List.filter (touchesWindow dayStart dayEnd) busy) in
  match sortedBusy with
  | [] =>
      (* Entire day is free *)
      [ {| start := dayStart; end_ := dayEnd |} ]
  | firstBusy :: _ =>
      (* free slot before first busy slot *)
      (if isBefore dayStart (start firstBusy)
       then let freeEnd := addMinutes (start firstBusy) (- bufferMinutes) in
            if isBefore dayStart freeEnd
            then [ {| start := dayStart; end_ := freeEnd |} ] else []
       else [])
      (* free slots between busy slots *)
      ++ gapsBetween sortedBusy bufferMinutes
      (* free slot after last busy slot *)
      ++ (let lastBusy := List.last sortedBusy firstBusy in
          let freeStart := addMinutes (end_ lastBusy) bufferMinutes in
          if isBefore freeStart dayEnd
          then [ {| start := freeStart; end_ := dayEnd |} ] else [])
  end.

(** [while (currentDate <= endDate) { ...; currentDate = addDays(currentDate, 1) }]
    with the results of the working days appended in order.  [dayFuel] turns
    of the loop are always enough ([dayLoop_fuel] below). *)
Fixpoint dayLoop {A} (fuel : nat) (currentDate endDate : Z) (workDays : list Z)
    (body : Z -> list A) : list A :=
  match fuel with
  | O => []
  | S fuel' =>
      if currentDate <=? endDate
      then (if includesDay workDays (getDay currentDate) then body currentDate else [])
           ++ dayLoop fuel' (addDays currentDate 1) endDate workDays body
      else []
  end.

Definition dayFuel (startDate endDate : Z) : nat :=
  Z.to_nat ((endDate - startDate) / MS_PER_DAY + 1).

(** [opts.bufferMinutes || 0] *)
Definition bufferOf (opts : AvailabilityOptions) : Z := default 0 (bufferMinutes opts).

Definition userFreeSlots (user : UserAvailability) (startDate endDate : Z)
    (opts : AvailabilityOptions) : list TimeSlot :=
  let wh := userWorkingHours user in
  dayLoop (dayFuel startDate endDate) startDate endDate (days wh)
    (fun currentDate =>
       let dayStart := parseTimeOnDate (whStart wh) currentDate in
       let dayEnd := parseTimeOnDate (whEnd wh) currentDate in
       findFreeSlotsInDay (busySlots user) dayStart dayEnd (bufferOf opts)).

(** The result object, keyed by [userId]: a later user of the same id
    replaces the entry of an earlier one.  The map stands for what
    [result[key]] reads back after [result[key] = slots]; the properties
    that a plain object inherits, and the id "__proto__", whose assignment
    creates no own property, are not represented. *)
Definition calculateAvailability (users : list UserAvailability)
    (startDate endDate : Z) (options : AvailabilityOptions)
    : gmap string (list TimeSlot) :=
  let opts := mergeOptions defaultOptions options in
  fold_left (fun result user =>
               <[ userId user := userFreeSlots user startDate endDate opts ]> result)
            users ∅.

(** The inner loop of [generateTimeSlots], one candidate every 30 minutes. *)
Fixpoint slotLoop (fuel : nat) (slotStart dayEnd duration : Z) : list TimeSlot :=
  match fuel with
  | O => []
  | S fuel' =>
      if addMinutes slotStart duration <=? dayEnd
      then {| start := slotStart; end_ := addMinutes slotStart duration |}
           :: slotLoop fuel' (addMinutes slotStart 30) dayEnd duration
      else []
  end.

Definition slotFuel (dayStart dayEnd duration : Z) : nat :=
  Z.to_nat ((dayEnd - addMinutes dayStart duration) / (30 * MS_PER_MINUTE) + 1).

Definition generateTimeSlots (startDate endDate duration : Z)
    (options : AvailabilityOptions) : list TimeSlot :=
  let wh := default defaultWorkingHours (workingHours options) in
  dayLoop (dayFuel startDate endDate) startDate endDate (days wh)
    (fun currentDate =>
       let dayStart := parseTimeOnDate (whStart wh) currentDate in
       let dayEnd := parseTimeOnDate (whEnd wh) currentDate in
       slotLoop (slotFuel dayStart dayEnd duration) dayStart dayEnd duration).

Definition isSlotAvailable (slot : TimeSlot) (freeSlots : list TimeSlot) : bool :=
  existsb (fun freeSlot =>
             negb (isBefore (start slot) (start freeSlot))
             && negb (isAfter (end_ slot) (end_ freeSlot))) freeSlots.

(** With no user at all the source divides 0 by 0 and every score is NaN;
    the comparator of the sort then yields NaN, which counts as 0.  Here the
    quotient is 0 and all scores are equal as well. *)
Definition calculateSlotScore (slot : TimeSlot) (availableCount totalCount : nat) : Q :=
  let score := (Qmake (Z.of_nat availableCount) 1 / Qmake (Z.of_nat totalCount) 1)%Q in
  let hour := getHours (start slot) in
  let minute := getMinutes (start slot) in
  (* round hours and half hours *)
  let score := if minute =? 0 then (score * (6#5))%Q
               else if minute =? 30 then (score * (11#10))%Q else score in
  (* typical meeting times (9-11 AM, 1-4 PM) *)
  let score := if ((9 <=? hour) && (hour <=? 11)) || ((13 <=? hour) && (hour <=? 16))
               then (score * (13#10))%Q else score in
  (* very early or late times *)
  let score := if (hour <? 9) || (16 <? hour) then (score * (9#10))%Q else score in
  (* right after lunch, end of day *)
  let score := if hour =? 13 then (score * (19#20))%Q else score in
  let score := if 17 <=? hour then (score * (4#5))%Q else score in
  score.

(** [Math.ceil(users.length * 0.6)].  The double nearest to 0.6 lies below
    0.6 by less than one part in 10^16, so the rounded product of the source
    is never above 3n/5 and never as low as the integer below it: its
    ceiling is the ceiling of the exact 3n/5. *)
Definition minParticipants (users : list UserAvailability) : Z :=
  ceil (Qmake (Z.of_nat (length users)) 1 * (3#5)).

(** The users free during [slot].  Every user has an entry in the
    availability object ([calculateAvailability_lookup] below), so the
    lookup never yields [undefined]. *)
Definition availableUsersFor (users : list UserAvailability)
    (userAvailabilities : gmap string (list TimeSlot)) (slot : TimeSlot) : list string :=
  map userId
      (List.filter (fun user =>
                 isSlotAvailable slot (default [] (userAvailabilities !! userId user)))
              users).

(** The candidates that pass the quorum test, in the order of the slots. *)
Definition qualifyingSuggestions (users : list UserAvailability) (duration : Z)
    (startDate endDate : Z) (options : AvailabilityOptions) : list MeetingSuggestion :=
  let opts := mergeOptions defaultOptions options in
  let userAvailabilities := calculateAvailability users startDate endDate opts in
  let timeSlots := generateTimeSlots startDate endDate duration opts in
  flat_map
    (fun slot =>
       let availableUsers := availableUsersFor users userAvailabilities slot in
       if minParticipants users <=? Z.of_nat (length availableUsers)
       then [ {| sugStart := start slot;
                 sugEnd := end_ slot;
                 duration := duration;
                 availableParticipants := availableUsers;
                 confidence := (Qmake (Z.of_nat (length availableUsers)) 1
                                / Qmake (Z.of_nat (length users)) 1)%Q;
                 score := calculateSlotScore slot (length availableUsers)
                                             (length users) |} ]
       else [])
    timeSlots.

(** [suggestions.sort((a, b) => b.score - a.score).slice(0, 10)] *)
Definition suggestMeetingTimes (users : list UserAvailability) (duration : Z)
    (startDate endDate : Z) (options : AvailabilityOptions) : list MeetingSuggestion :=
  take 10 (sort (fun a b => Qle_bool (score b) (score a))
                (qualifyingSuggestions users duration startDate endDate options)).

(** [format(date, 'HH:mm')] of date-fns: hours and minutes on two digits. *)
Definition digitChar (d : Z) : ascii := ascii_of_nat (48 + Z.to_nat d).

Definition twoDigits (n : Z) : string :=
  String (digitChar (n / 10)) (String (digitChar (n mod 10)) EmptyString).

Definition formatHHmm (date : Z) : string :=
  (twoDigits (getHours date) +:+ ":" +:+ twoDigits (getMinutes date))%string.

(** The loop of [findOptimalMeetingTime] that multiplies the score of the
    suggestions at a preferred time by 1.5. *)
Definition boostPreferred (preferredTimes : list string) (suggestion : MeetingSuggestion)
    : MeetingSuggestion :=
  if existsb (String.eqb (formatHHmm (sugStart suggestion))) preferredTimes
  then {| sugStart := sugStart suggestion;
          sugEnd := sugEnd suggestion;
          duration := duration suggestion;
          availableParticipants := availableParticipants suggestion;
          confidence := confidence suggestion;
          score := (score suggestion * (3#2))%Q |}
  else suggestion.

Definition findOptimalMeetingTime (users : list UserAvailability) (duration : Z)
    (startDate endDate : Z) (preferredTimes : option (list string))
    (options : AvailabilityOptions) : option MeetingSuggestion :=
  let suggestions := suggestMeetingTimes users duration startDate endDate options in
  match suggestions with
  | [] => None
  | _ =>
      let suggestions :=
        match preferredTimes with
        | Some times =>
            if (0 <? length times)%nat
            then (* boost, then re-sort *)
                 sort (fun a b => Qle_bool (score b) (score a))
                      (map (boostPreferred times) suggestions)
            else suggestions
        | None => suggestions
        end in
      head suggestions
  end.

End Availability.

(** ** ConflictDetector *)

Module Conflicts.
Import Js.
Local Open Scope string_scope.
Local Open Scope Z_scope.

Record Event := {
  id : string;
  title : string;
  startTime : Z;
  endTime : Z;
  calendarId : string;
  isWork : bool;
  userId : string
}.

Inductive ConflictType := overlap | double_booking | back_to_back | travel_time.
Inductive Severity := low | medium | high | critical.

(** The fields [description] and [suggestions] of the source are texts built
    from templates; they are left out of the record. *)
Record Conflict := {
  conflictId : string;
  type : ConflictType;
  severity : Severity;
  primaryEvent : Event;
  conflictingEvent : Event;
  overlapDuration : option Z   (* in minutes *)
}.

(** Every field is optional; [travelTimeMinutes] is a whole number of
    minutes. *)
Record ConflictDetectionOptions := {
  includeBackToBack : option bool;
  travelTimeMinutes : option Z;
  workPersonalSeparation : option bool
}.

Definition defaultOptions : ConflictDetectionOptions :=
  {| includeBackToBack := Some true;
     travelTimeMinutes := Some 15;
     workPersonalSeparation := Some false |}.

Definition noOptions : ConflictDetectionOptions :=
  {| includeBackToBack := None; travelTimeMinutes := None;
     workPersonalSeparation := None |}.

(** [{ ...defaults, ...options }] *)
Definition mergeOptions (defaults options : ConflictDetectionOptions)
    : ConflictDetectionOptions :=
  {| includeBackToBack :=
       orElse (includeBackToBack options) (includeBackToBack defaults);
     travelTimeMinutes :=
       orElse (travelTimeMinutes options) (travelTimeMinutes defaults);
     workPersonalSeparation :=
       orElse (workPersonalSeparation options)
                           (workPersonalSeparation defaults) |}.

Definition mkId (event1 event2 : Event) : string :=
  "conflict_" +:+ id event1 +:+ "_" +:+ id event2.

(** [x / (1000 * 60)] for a number of milliseconds, as an exact fraction. *)
Definition toMinutes (ms : Z) : Q := Qmake ms 60000.

Definition Qmin (a b : Q) : Q := if Qle_bool a b then a else b.

Definition intervalsOverlap (event1 event2 : Event) : bool :=
  (startTime event1 <? endTime event2) && (endTime event1 >? startTime event2)
  || (startTime event2 <? endTime event1) && (endTime event2 >? startTime event1)
  || (startTime event1 =? startTime event2)%Z && (endTime event1 =? endTime event2)%Z.

Definition checkOverlap (event1 event2 : Event) : option Conflict :=
  if intervalsOverlap event1 event2 then
    let overlapStart := Z.max (startTime event1) (startTime event2) in
    let overlapEnd := Z.min (endTime event1) (endTime event2) in
    let overlapDuration := round (toMinutes (overlapEnd - overlapStart)) in
    let '(sev, ty) :=
      (* Complete overlap (same time) *)
      if (startTime event1 =? startTime event2)%Z && (endTime event1 =? endTime event2)%Z
      then (critical, double_booking)
      (* Significant overlap (>50% of shorter event) *)
      else if Qlt_bool
                (Qmin (toMinutes (endTime event1 - startTime event1))
                      (toMinutes (endTime event2 - startTime event2)) * (1#2))
                (Qmake overlapDuration 1)
      then (high, overlap)
      (* Moderate overlap *)
      else if 30 <? overlapDuration then (medium, overlap)
      (* Minor overlap *)
      else (low, overlap) in
    Some {| conflictId := mkId event1 event2;
            type := ty;
            severity := sev;
            primaryEvent := event1;
            conflictingEvent := event2;
            overlapDuration := Some overlapDuration |}
  else None.

Definition checkBackToBack (event1 event2 : Event) (travelTimeMinutes : Z)
    : option Conflict :=
  let timeBetween := toMinutes (startTime event2 - endTime event1) in
  (* Events are back-to-back with insufficient travel time *)
  if Qle_bool 0 timeBetween && Qlt_bool timeBetween (Qmake travelTimeMinutes 1) then
    let sev := if Qeq_bool timeBetween 0 then medium
               else if Qlt_bool timeBetween 5 then medium
               else low in
    Some {| conflictId := mkId event1 event2;
            type := travel_time;
            severity := sev;
            primaryEvent := event1;
            conflictingEvent := event2;
            overlapDuration := None |}
  else None.

Definition checkWorkPersonalSeparation (event1 event2 : Event) : option Conflict :=
  if negb (Bool.eqb (isWork event1) (isWork event2)) then
    let workEvent := if isWork event1 then event1 else event2 in
    let personalEvent := if isWork event1 then event2 else event1 in
    (* work event outside typical work hours (9-17) *)
    let workEventHour := Availability.getHours (startTime workEvent) in
    if (workEventHour <? 9) || (17 <=? workEventHour) then
      Some {| conflictId := mkId event1 event2;
              type := overlap;
              severity := medium;
              primaryEvent := workEvent;
              conflictingEvent := personalEvent;
              overlapDuration := None |}
    else None
  else None.

(** [options.includeBackToBack && options.travelTimeMinutes]: an absent
    field and the number 0 are falsy. *)
Definition backToBackEnabled (options : ConflictDetectionOptions) : bool :=
  default false (includeBackToBack options)
  && negb (default 0 (travelTimeMinutes options) =? 0)%Z.

Definition detectConflictBetweenEvents (event1 event2 : Event)
    (options : ConflictDetectionOptions) : option Conflict :=
  match checkOverlap event1 event2 with
  | Some overlapConflict => Some overlapConflict
  | None =>
      match (if backToBackEnabled options
             then checkBackToBack event1 event2 (default 0 (travelTimeMinutes options))
             else None) with
      | Some backToBackConflict => Some backToBackConflict
      | None =>
          if default false (workPersonalSeparation options)
          then checkWorkPersonalSeparation event1 event2
          else None
      end
  end.

(** The key of [deduplicateConflicts]:
    [[primaryEvent.id, conflictingEvent.id].sort().join('_')]. *)
Definition pairKey (a b : string) : string :=
  if String.ltb b a then b +:+ "_" +:+ a else a +:+ "_" +:+ b.

Definition conflictKey (c : Conflict) : string :=
  pairKey (id (primaryEvent c)) (id (conflictingEvent c)).

(** The [filter] of [deduplicateConflicts], with its [Set] of seen keys. *)
Fixpoint dedupLoop (conflicts : list Conflict) (seen : gset string) : list Conflict :=
  match conflicts with
  | [] => []
  | conflict :: rest =>
      let key := conflictKey conflict in
      if bool_decide (key ∈ seen) then dedupLoop rest seen
      else conflict :: dedupLoop rest ({[ key ]} ∪ seen)
  end.

Definition deduplicateConflicts (conflicts : list Conflict) : list Conflict :=
  dedupLoop conflicts ∅.

(** The inner loop of [detectConflicts]: [event1] against every later event. *)
Definition conflictsWith (event1 : Event) (later : list Event)
    (opts : ConflictDetectionOptions) : list Conflict :=
  flat_map (fun event2 =>
              (* Skip if events are from the same calendar *)
              if String.eqb (calendarId event1) (calendarId event2) then []
              else match detectConflictBetweenEvents event1 event2 opts with
                   | Some conflict => [conflict]
                   | None => []
                   end) later.

(** The outer loop: [i] from 0, [j] from [i + 1]. *)
Fixpoint pairLoop (sortedEvents : list Event) (opts : ConflictDetectionOptions)
    : list Conflict :=
  match sortedEvents with
  | [] => []
  | event1 :: later => conflictsWith event1 later opts ++ pairLoop later opts
  end.

Definition detectConflicts (events : list Event) (options : ConflictDetectionOptions)
    : list Conflict :=
  let opts := mergeOptions defaultOptions options in
  let sortedEvents := sort (fun a b => startTime a <=? startTime b) events in
  deduplicateConflicts (pairLoop sortedEvents opts).

Definition detectConflictsForEvent (newEvent : Event) (existingEvents : list Event)
    (options : ConflictDetectionOptions) : list Conflict :=
  let opts := mergeOptions defaultOptions options in
  flat_map (fun existingEvent =>
              if String.eqb (id existingEvent) (id newEvent) then []
              else match detectConflictBetweenEvents newEvent existingEvent opts with
                   | Some conflict => [conflict]
                   | None => []
                   end) existingEvents.

(** The two counter objects of [getConflictStats], one counter per key. *)
Record SeverityCounts := {
  nLow : nat; nMedium : nat; nHigh : nat; nCritical : nat
}.

Record TypeCounts := {
  nOverlap : nat; nDoubleBooking : nat; nBackToBack : nat; nTravelTime : nat
}.

Record ConflictStats := {
  total : nat;
  bySeverity : SeverityCounts;
  byType : TypeCounts
}.

(** [stats.bySeverity[conflict.severity]++] *)
Definition bumpSeverity (s : Severity) (c : SeverityCounts) : SeverityCounts :=
  match s with
  | low => {| nLow := S (nLow c); nMedium := nMedium c;
              nHigh := nHigh c; nCritical := nCritical c |}
  | medium => {| nLow := nLow c; nMedium := S (nMedium c);
                 nHigh := nHigh c; nCritical := nCritical c |}
  | high => {| nLow := nLow c; nMedium := nMedium c;
               nHigh := S (nHigh c); nCritical := nCritical c |}
  | critical => {| nLow := nLow c; nMedium := nMedium c;
                   nHigh := nHigh c; nCritical := S (nCritical c) |}
  end.

(** [stats.byType[conflict.type]++] *)
Definition bumpType (t : ConflictType) (c : TypeCounts) : TypeCounts :=
  match t with
  | overlap => {| nOverlap := S (nOverlap c); nDoubleBooking := nDoubleBooking c;
                  nBackToBack := nBackToBack c; nTravelTime := nTravelTime c |}
  | double_booking => {| nOverlap := nOverlap c;
                         nDoubleBooking := S (nDoubleBooking c);
                         nBackToBack := nBackToBack c; nTravelTime := nTravelTime c |}
  | back_to_back => {| nOverlap := nOverlap c; nDoubleBooking := nDoubleBooking c;
                       nBackToBack := S (nBackToBack c);
                       nTravelTime := nTravelTime c |}
  | travel_time => {| nOverlap := nOverlap c; nDoubleBooking := nDoubleBooking c;
                      nBackToBack := nBackToBack c;
                      nTravelTime := S (nTravelTime c) |}
  end.

Definition getConflictStats (conflicts : list Conflict) : ConflictStats :=
  fold_left (fun stats conflict =>
               {| total := total stats;
                  bySeverity := bumpSeverity (severity conflict) (bySeverity stats);
                  byType := bumpType (type conflict) (byType stats) |})
            conflicts
            {| total := length conflicts;
               bySeverity := {| nLow := 0; nMedium := 0; nHigh := 0; nCritical := 0 |};
               byType := {| nOverlap := 0; nDoubleBooking := 0;
                            nBackToBack := 0; nTravelTime := 0 |} |}.

(** The severity that the conflicts route (app/api/conflicts/route.ts) stores
    with the record of a detected conflict:
    [type === 'double_booking' ? 'critical' : severity === 'high' ? 'high'
     : severity === 'medium' ? 'medium' : 'low']. *)
Definition recordSeverity (conflict : Conflict) : Severity :=
  match type conflict with
  | double_booking => critical
  | _ => match severity conflict with
         | high => high
         | medium => medium
         | _ => low
         end
  end.

(** [conflicts.filter(c => c.severity === 'high' || c.severity === 'critical').length]
    of the same route. *)
Definition highPriorityConflicts (conflicts : list Conflict) : nat :=
  length (List.filter (fun c => match severity c with
                                | high | critical => true
                                | _ => false
                                end) conflicts).

End Conflicts.

(** ** Vocabulary of the properties and sample inputs *)

Module Vocabulary.
Import Js.
Local Open Scope string_scope.
Local Open Scope Z_scope.

(** A string of decimal digits. *)
Definition allDigits (s : string) : Prop :=
  Forall (fun c => isDigit c = true) (list_ascii_of_string s).

(** The invariant of [TimeSlot]: [start < end]. *)
Definition wellFormed (slot : Availability.TimeSlot) : Prop :=
  Availability.start slot < Availability.end_ slot.

(** Overlap of two slots as open intervals. *)
Definition slotsOverlap (a b : Availability.TimeSlot) : bool :=
  (Availability.start a <? Availability.end_ b)
  && (Availability.start b <? Availability.end_ a).

(** An instant of a slot, the end left out. *)
Definition inSlot (t : Z) (slot : Availability.TimeSlot) : Prop :=
  Availability.start slot <= t < Availability.end_ slot.

(** An instant of a slot or of the buffer kept around it. *)
Definition nearSlot (bufferMinutes t : Z) (slot : Availability.TimeSlot) : Prop :=
  Availability.addMinutes (Availability.start slot) (- bufferMinutes) <= t
  < Availability.addMinutes (Availability.end_ slot) bufferMinutes.

(** The order in which non-overlapping slots follow one another. *)
Definition precedes (a b : Availability.TimeSlot) : Prop :=
  Availability.start a <= Availability.start b
  /\ Availability.end_ a <= Availability.end_ b.

(** 2024-01-01T00:00:00Z, a Monday. *)
Definition monday : Z := 1704067200000.

Definition at_ (day hours minutes : Z) : Z :=
  day + hours * Availability.MS_PER_HOUR + minutes * Availability.MS_PER_MINUTE.

Definition userWith (uid : string) (busy : list Availability.TimeSlot)
    (wh : Availability.WorkingHours) : Availability.UserAvailability :=
  {| Availability.userId := uid;
     Availability.name := uid;
     Availability.email := uid +:+ "@example.org";
     Availability.busySlots := busy;
     Availability.userWorkingHours := wh |}.

(** *** Conflicts *)

Definition sameInterval (a b : Conflicts.Event) : bool :=
  (Conflicts.startTime a =? Conflicts.startTime b)
  && (Conflicts.endTime a =? Conflicts.endTime b).

(** The length of the intersection of two events in whole minutes, the
    nearest whole number with halves going up: the [overlapMinutes] of the
    specification, an integer. *)
Definition overlapMinutes (a b : Conflicts.Event) : Z :=
  (Z.min (Conflicts.endTime a) (Conflicts.endTime b)
   - Z.max (Conflicts.startTime a) (Conflicts.startTime b) + 30000) / 60000.

(** The duration of the shorter of two events, in milliseconds. *)
Definition shorterDuration (a b : Conflicts.Event) : Z :=
  Z.min (Conflicts.endTime a - Conflicts.startTime a)
        (Conflicts.endTime b - Conflicts.startTime b).

(** The classification of an overlapping pair in the words of the
    specification: equal intervals are a critical double booking; an overlap
    of more than half of the shorter event is high; an overlap of more than
    30 minutes is medium; any other is low. *)
Definition classifyOverlap (a b : Conflicts.Event)
    : Conflicts.ConflictType * Conflicts.Severity :=
  if sameInterval a b then (Conflicts.double_booking, Conflicts.critical)
  else if shorterDuration a b <? 2 * (overlapMinutes a b * 60000)
       then (Conflicts.overlap, Conflicts.high)
  else if 30 <? overlapMinutes a b then (Conflicts.overlap, Conflicts.medium)
  else (Conflicts.overlap, Conflicts.low).


(** Two conflicts are about the same unordered pair of event ids. *)
Definition sameEventPair (c1 c2 : Conflicts.Conflict) : Prop :=
  let p1 := Conflicts.id (Conflicts.primaryEvent c1) in
  let q1 := Conflicts.id (Conflicts.conflictingEvent c1) in
  let p2 := Conflicts.id (Conflicts.primaryEvent c2) in
  let q2 := Conflicts.id (Conflicts.conflictingEvent c2) in
  (p1 = p2 /\ q1 = q2) \/ (p1 = q2 /\ q1 = p2).

(** A conflict is about the ids of two events, in one order or the other. *)
Definition concerns (c : Conflicts.Conflict) (a b : Conflicts.Event) : Prop :=
  (Conflicts.id (Conflicts.primaryEvent c) = Conflicts.id a
   /\ Conflicts.id (Conflicts.conflictingEvent c) = Conflicts.id b)
  \/ (Conflicts.id (Conflicts.primaryEvent c) = Conflicts.id b
      /\ Conflicts.id (Conflicts.conflictingEvent c) = Conflicts.id a).

(** An id without the character that joins the two ids of a key. *)
Definition noUnderscore (s : string) : Prop :=
  Forall (fun c => c <> "_"%char) (list_ascii_of_string s).

Definition event (eid cal : string) (work : bool) (from to : Z) : Conflicts.Event :=
  {| Conflicts.id := eid;
     Conflicts.title := eid;
     Conflicts.startTime := from;
     Conflicts.endTime := to;
     Conflicts.calendarId := cal;
     Conflicts.isWork := work;
     Conflicts.userId := "user" |}.

(** What the properties read off a conflict. *)
Definition summary (c : Conflicts.Conflict)
    : string * Conflicts.ConflictType * Conflicts.Severity :=
  (Conflicts.conflictId c, Conflicts.type c, Conflicts.severity c).

(** *** Further vocabulary *)

(** A string without any decimal digit. *)
Definition noDigit (s : string) : Prop :=
  Forall (fun c => isDigit c = false) (list_ascii_of_string s).

(** A string of white space only. *)
Definition allSpaces (s : string) : Prop :=
  Forall (fun c => isSpace c = true) (list_ascii_of_string s).

(** One slot lies inside another. *)
Definition within (inner outer : Availability.TimeSlot) : Prop :=
  Availability.start outer <= Availability.start inner
  /\ Availability.end_ inner <= Availability.end_ outer.

(** One slot is over when the other begins. *)
Definition endsBefore (a b : Availability.TimeSlot) : Prop :=
  Availability.end_ a <= Availability.start b.

(** An event is a proper interval. *)
Definition properEvent (e : Conflicts.Event) : Prop :=
  Conflicts.startTime e < Conflicts.endTime e.

(** What a conflict says besides the order of its two events. *)
Definition verdict (c : Conflicts.Conflict)
    : Conflicts.ConflictType * Conflicts.Severity * option Z :=
  (Conflicts.type c, Conflicts.severity c, Conflicts.overlapDuration c).

(** The combinations of type, severity and overlap duration that the three
    checks of the detector produce. *)
Inductive possibleVerdict : Conflicts.Conflict -> Prop :=
| verdict_double c :
    Conflicts.type c = Conflicts.double_booking ->
    Conflicts.severity c = Conflicts.critical ->
    is_Some (Conflicts.overlapDuration c) -> possibleVerdict c
| verdict_overlap c :
    Conflicts.type c = Conflicts.overlap ->
    Conflicts.severity c <> Conflicts.critical ->
    is_Some (Conflicts.overlapDuration c) -> possibleVerdict c
| verdict_travel c :
    Conflicts.type c = Conflicts.travel_time ->
    Conflicts.severity c = Conflicts.medium \/ Conflicts.severity c = Conflicts.low ->
    Conflicts.overlapDuration c = None -> possibleVerdict c
| verdict_separation c :
    Conflicts.type c = Conflicts.overlap ->
    Conflicts.severity c = Conflicts.medium ->
    Conflicts.overlapDuration c = None -> possibleVerdict c.

(** Counting the conflicts of one severity, of one type. *)
Definition countSeverity (s : Conflicts.Severity) (l : list Conflicts.Conflict) : nat :=
  length (List.filter
            (fun c => match Conflicts.severity c, s with
                      | Conflicts.low, Conflicts.low
                      | Conflicts.medium, Conflicts.medium
                      | Conflicts.high, Conflicts.high
                      | Conflicts.critical, Conflicts.critical => true
                      | _, _ => false
                      end) l).

Definition countType (t : Conflicts.ConflictType) (l : list Conflicts.Conflict) : nat :=
  length (List.filter
            (fun c => match Conflicts.type c, t with
                      | Conflicts.overlap, Conflicts.overlap
                      | Conflicts.double_booking, Conflicts.double_booking
                      | Conflicts.back_to_back, Conflicts.back_to_back
                      | Conflicts.travel_time, Conflicts.travel_time => true
                      | _, _ => false
                      end) l).

End Vocabulary.

(** * Properties *)

(** ** The duration estimator *)

Section EstimatorProperties.
Import Js Estimator Vocabulary.
Local Open Scope string_scope.
Local Open Scope Z_scope.

(** The pieces of the computation on "Quick team meeting": the text ends
    with the space that precedes the absent description, so that the last
    word is empty; an empty word is contained in every keyword and the first
    pattern, meetings, scores 1. *)
Example quick_team_meeting_words :
  split_whitespace (fullText "Quick team meeting" None)
  = ["quick"; "team"; "meeting"; ""].
Proof. reflexivity. Qed.

Example quick_team_meeting_base :
  baseMinutes <$> fst (findBestMatch ["quick"; "team"; "meeting"; ""]) = Some 30.
Proof. vm_compute. reflexivity. Qed.

Example quick_team_meeting_keywords :
  (applyMultipliers "quick team meeting "
     [("quick", 1#2); ("brief", 1#2); ("short", 1#2); ("long", 2#1);
      ("extended", 5#2); ("all-day", 8#1); ("team", 3#2); ("client", 3#2)] 1
   == (1#2) * (3#2))%Q
  /\ (applyMultipliers "quick team meeting " commonMultipliers 1 == 1)%Q.
Proof. split; vm_compute; reflexivity. Qed.

(** "team" is also a collaboration indicator of [calculateComplexityMultiplier]. *)
Example quick_team_meeting_complexity :
  (calculateComplexityMultiplier "quick team meeting " 4 == 13#10)%Q.
Proof. vm_compute. reflexivity. Qed.

(** C1, as amended: on the title "Quick team meeting" with no description the
    estimator returns 29 minutes, that is round(30 * 0.5 * 1.5 * 1.3): the
    meeting base of 30, the keyword multipliers "quick" 0.5 and "team" 1.5,
    and the collaboration multiplier 1.3 that "team" triggers as well. *)
Theorem estimate_quick_team_meeting :
  estimateDuration "Quick team meeting" None = 29
  /\ round (30 * (1#2) * (3#2) * (13#10)) = 29.
Proof. split; vm_compute; reflexivity. Qed.

(** C1 as stated fails: the result is not 23. *)
Lemma estimate_quick_team_meeting_not_23 :
  estimateDuration "Quick team meeting" None <> 23.
Proof. vm_compute. discriminate. Qed.

(** Digits only come out of the first capture group. *)
Lemma takeDigits_allDigits s : allDigits (fst (takeDigits s)).
Proof.
  induction s as [|c s IH]; simpl.
  - constructor.
  - destruct (isDigit c) eqn:Hc.
    + destruct (takeDigits s) as [ds rest]. simpl in *.
      constructor; assumption.
    + constructor.
Qed.

Lemma matchAt_allDigits units s ds : matchAt units s = Some ds -> allDigits ds.
Proof.
  unfold matchAt. pose proof (takeDigits_allDigits s) as H.
  destruct (takeDigits s) as [d rest]. simpl in H.
  destruct d; [discriminate|].
  destruct (existsb _ _); [|discriminate].
  intros [= <-]. exact H.
Qed.

Lemma regexMatch_allDigits units s ds : regexMatch units s = Some ds -> allDigits ds.
Proof.
  induction s as [|c s IH]; simpl.
  - discriminate.
  - destruct (matchAt units (String c s)) eqn:E.
    + intros [= <-]. eapply matchAt_allDigits; eauto.
    + exact IH.
Qed.

Lemma parseDigits_nonneg s :
  allDigits s -> forall acc, 0 <= acc -> 0 <= parseDigits s acc.
Proof.
  induction s as [|c s IH]; intros Hd acc Hacc; simpl.
  - exact Hacc.
  - inversion Hd as [|? ? Hc Hs]; subst.
    apply IH; [exact Hs|].
    unfold isDigit in Hc. apply andb_true_iff in Hc as [H1 _].
    apply Nat.leb_le in H1. lia.
Qed.

Lemma firstTimeMatch_nonneg text ps n :
  Forall (fun p => 0 <= snd p) ps -> firstTimeMatch text ps = Some n -> 0 <= n.
Proof.
  induction ps as [|[units m] ps IH]; simpl; intros Hps Hn.
  - discriminate.
  - inversion Hps as [|? ? Hm Hrest]; subst. simpl in Hm.
    destruct (regexMatch units text) as [ds|] eqn:E.
    + injection Hn as <-.
      apply Z.mul_nonneg_nonneg; [|exact Hm].
      apply parseDigits_nonneg; [|lia].
      eapply regexMatch_allDigits; eauto.
    + eauto.
Qed.

Lemma extractTimeIndicators_nonneg text n :
  extractTimeIndicators text = Some n -> 0 <= n.
Proof.
  apply firstTimeMatch_nonneg.
  unfold timePatterns. repeat constructor; simpl; lia.
Qed.

(** C2, as amended: an explicit duration found in the text, when it is not
    0, is the result as it stands, whatever its size (it is at least 1);
    in every other case (no explicit duration, or one that amounts to 0 such
    as "0 minutes") the result lies in [5, 480]. *)
Theorem estimate_bounds (title : string) (description : option string) :
  let minutes := estimateDuration title description in
  match extractTimeIndicators (fullText title description) with
  | Some n => if truthy n then minutes = n /\ 1 <= n else 5 <= minutes <= 480
  | None => 5 <= minutes <= 480
  end.
Proof.
  unfold estimateDuration.
  destruct (extractTimeIndicators _) as [n|] eqn:E; cbn zeta.
  - destruct (truthy n) eqn:T.
    + split; [reflexivity|].
      apply extractTimeIndicators_nonneg in E.
      unfold truthy in T. apply negb_true_iff, Z.eqb_neq in T. lia.
    + lia.
  - lia.
Qed.

(** C2 as stated fails: "2 days" is answered by 960 minutes, 2 times the 480
    minutes of a work day, above the bound of 480. *)
Lemma estimate_two_days_out_of_bounds :
  estimateDuration "2 days" None = 960
  /\ ~ (5 <= estimateDuration "2 days" None <= 480).
Proof.
  split; [vm_compute; reflexivity|].
  vm_compute. intros [_ H]. apply H. reflexivity.
Qed.

(** "0 minutes" is found by [extractTimeIndicators] and discarded as falsy. *)
Example estimate_zero_minutes :
  extractTimeIndicators (fullText "0 minutes" None) = Some 0
  /\ estimateDuration "0 minutes" None = 30.
Proof. split; vm_compute; reflexivity. Qed.

End EstimatorProperties.

(** ** The stable sort *)

Section SortProperties.
Import Js.
Context {A : Type} (le : A -> A -> bool).

Lemma insert_sorted_perm (x : A) (l : list A) :
  Permutation (x :: l) (insert_sorted le x l).
Proof.
  induction l as [|y l IH]; simpl.
  - reflexivity.
  - destruct (le x y).
    + reflexivity.
    + rewrite <- IH. apply perm_swap.
Qed.

Lemma sort_perm (l : list A) : Permutation l (sort le l).
Proof.
  induction l as [|x l IH]; simpl.
  - reflexivity.
  - rewrite <- insert_sorted_perm. now constructor.
Qed.

Lemma length_sort (l : list A) : length (sort le l) = length l.
Proof. symmetry. apply Permutation_length, sort_perm. Qed.

Lemma Forall_sort (P : A -> Prop) (l : list A) : Forall P l -> Forall P (sort le l).
Proof. intros H. eapply Permutation_Forall; [apply sort_perm | exact H]. Qed.

Lemma insert_sorted_In (x y : A) (l : list A) :
  In y (insert_sorted le x l) -> y = x \/ In y l.
Proof.
  intros H. apply (Permutation_in _ (Permutation_sym (insert_sorted_perm x l))) in H.
  destruct H as [<-|H]; auto.
Qed.

(** For a total and transitive comparison the result is in order. *)
Lemma sort_StronglySorted :
  (forall a b, le a b = false -> le b a = true) ->
  (forall a b c, le a b = true -> le b c = true -> le a c = true) ->
  forall l, StronglySorted (fun a b => le a b = true) (sort le l).
Proof.
  intros Htotal Htrans.
  assert (Hins : forall x l,
             StronglySorted (fun a b => le a b = true) l ->
             StronglySorted (fun a b => le a b = true) (insert_sorted le x l)).
  { intros x l Hl. induction Hl as [|y l Hl IH Hy]; simpl.
    - repeat constructor.
    - destruct (le x y) eqn:Hxy.
      + constructor; [now constructor|].
        constructor; [exact Hxy|].
        eapply List.Forall_impl; [|exact Hy]. intros z Hz. eauto.
      + constructor; [exact IH|].
        apply List.Forall_forall. intros z Hz.
        apply insert_sorted_In in Hz as [->|Hz]; [now apply Htotal|].
        rewrite List.Forall_forall in Hy. now apply Hy. }
  induction l as [|x l IH]; simpl; [constructor | now apply Hins].
Qed.

Lemma sort_pair (a b : A) :
  sort le [a; b] = if le a b then [a; b] else [b; a].
Proof. reflexivity. Qed.

End SortProperties.

(** ** The availability calculator *)

Section AvailabilityProperties.
Import Js Availability Vocabulary.
Local Open Scope string_scope.
Local Open Scope Z_scope.

(** *** The loops stop on their own test *)

(** With [dayFuel] turns the loop over the days has seen its test fail:
    more fuel changes nothing. *)
Lemma dayLoop_enough {A} (body : Z -> list A) (workDays : list Z) (endDate : Z) :
  forall (n k : nat) (currentDate : Z),
    (endDate - currentDate) / MS_PER_DAY + 1 <= Z.of_nat n ->
    dayLoop (n + k) currentDate endDate workDays body
    = dayLoop n currentDate endDate workDays body.
Proof.
  induction n as [|n IH]; intros k cur Hn.
  - assert (Hlt : endDate < cur).
    { unfold MS_PER_DAY in Hn.
      destruct (Z.lt_ge_cases endDate cur) as [?|Hge]; [assumption|].
      assert (0 <= (endDate - cur) / 86400000) by (apply Z.div_pos; lia). lia. }
    destruct k; simpl; [reflexivity|].
    apply Z.leb_gt in Hlt. now rewrite Hlt.
  - simpl. destruct (cur <=? endDate) eqn:Hle; [|reflexivity].
    f_equal. apply IH. unfold addDays.
    replace (endDate - (cur + 1 * MS_PER_DAY))
      with ((endDate - cur) + (-1) * MS_PER_DAY) by lia.
    rewrite Z.div_add by (unfold MS_PER_DAY; lia). lia.
Qed.

Lemma dayLoop_fuel {A} (body : Z -> list A) workDays startDate endDate (k : nat) :
  dayLoop (dayFuel startDate endDate + k) startDate endDate workDays body
  = dayLoop (dayFuel startDate endDate) startDate endDate workDays body.
Proof. apply dayLoop_enough. unfold dayFuel. lia. Qed.

Lemma slotLoop_enough (dayEnd duration : Z) :
  forall (n k : nat) (slotStart : Z),
    (dayEnd - addMinutes slotStart duration) / (30 * MS_PER_MINUTE) + 1 <= Z.of_nat n ->
    slotLoop (n + k) slotStart dayEnd duration = slotLoop n slotStart dayEnd duration.
Proof.
  induction n as [|n IH]; intros k cur Hn.
  - assert (Hlt : dayEnd < addMinutes cur duration).
    { unfold MS_PER_MINUTE in Hn.
      destruct (Z.lt_ge_cases dayEnd (addMinutes cur duration)) as [?|Hge];
        [assumption|].
      assert (0 <= (dayEnd - addMinutes cur duration) / (30 * 60000))
        by (apply Z.div_pos; lia). lia. }
    destruct k; simpl; [reflexivity|].
    apply Z.leb_gt in Hlt. now rewrite Hlt.
  - simpl. destruct (addMinutes cur duration <=? dayEnd) eqn:Hle; [|reflexivity].
    f_equal. apply IH. unfold addMinutes in *.
    replace (dayEnd - (cur + 30 * MS_PER_MINUTE + duration * MS_PER_MINUTE))
      with ((dayEnd - (cur + duration * MS_PER_MINUTE)) + (-1) * (30 * MS_PER_MINUTE))
      by lia.
    rewrite Z.div_add by (unfold MS_PER_MINUTE; lia). lia.
Qed.

Lemma slotLoop_fuel dayStart dayEnd duration (k : nat) :
  slotLoop (slotFuel dayStart dayEnd duration + k) dayStart dayEnd duration
  = slotLoop (slotFuel dayStart dayEnd duration) dayStart dayEnd duration.
Proof. apply slotLoop_enough. unfold slotFuel. lia. Qed.

(** *** Every user has an entry in the availability object *)

Lemma calculateAvailability_lookup users startDate endDate options user :
  In user users ->
  is_Some (calculateAvailability users startDate endDate options !! userId user).
Proof.
  unfold calculateAvailability.
  generalize (mergeOptions defaultOptions options) as opts.
  intros opts.
  generalize (∅ : gmap string (list TimeSlot)) as acc.
  induction users as [|u users IH]; intros acc Hin; [destruct Hin|].
  simpl. destruct Hin as [->|Hin]; [|now apply IH].
  clear IH.
  assert (Hkeep : forall (us : list UserAvailability) (m : gmap string (list TimeSlot)),
             is_Some (m !! userId user) ->
             is_Some (fold_left (fun result u0 =>
                        <[ userId u0 := userFreeSlots u0 startDate endDate opts ]> result)
                        us m !! userId user)).
  { induction us as [|u0 us IHus]; intros m Hm; simpl; [exact Hm|].
    apply IHus. rewrite lookup_insert. destruct (decide _); [eauto | exact Hm]. }
  apply Hkeep. rewrite lookup_insert_eq. eauto.
Qed.

(** *** Free slots of one day *)

Lemma gapsBetween_wellFormed sortedBusy buffer :
  Forall wellFormed (gapsBetween sortedBusy buffer).
Proof.
  induction sortedBusy as [|current rest IH]; simpl; [constructor|].
  destruct rest as [|next rest']; [constructor|].
  apply Forall_app. split; [|exact IH].
  destruct (isBefore _ _) eqn:Hb; constructor; [|constructor].
  unfold wellFormed, isBefore in *. simpl. now apply Z.ltb_lt in Hb.
Qed.

(** Over a window that is not empty every slot handed out is a proper
    interval. *)
Lemma findFreeSlotsInDay_wellFormed busy dayStart dayEnd buffer :
  dayStart < dayEnd ->
  Forall wellFormed (findFreeSlotsInDay busy dayStart dayEnd buffer).
Proof.
  intros Hwin. unfold findFreeSlotsInDay.
  destruct (sort _ _) as [|firstBusy rest] eqn:Hs.
  - repeat constructor. exact Hwin.
  - repeat (apply Forall_app; split).
    + destruct (isBefore dayStart (start firstBusy)); [|constructor].
      destruct (isBefore dayStart _) eqn:Hb; constructor; [|constructor].
      unfold wellFormed, isBefore in *. simpl. now apply Z.ltb_lt in Hb.
    + apply gapsBetween_wellFormed.
    + cbv zeta. destruct (isBefore _ dayEnd) eqn:Hb; constructor; [|constructor].
      unfold wellFormed, isBefore in *. simpl. now apply Z.ltb_lt in Hb.
Qed.

Lemma dayLoop_Forall {A} (P : A -> Prop) (body : Z -> list A) workDays endDate :
  (forall date, Forall P (body date)) ->
  forall fuel currentDate, Forall P (dayLoop fuel currentDate endDate workDays body).
Proof.
  intros Hbody. induction fuel as [|fuel IH]; intros cur; simpl; [constructor|].
  destruct (cur <=? endDate); [|constructor].
  apply Forall_app. split; [|apply IH].
  destruct (includesDay _ _); [apply Hbody | constructor].
Qed.

(** Working hours that end after they start give proper free slots on every
    day of the range. *)
Lemma userFreeSlots_wellFormed user startDate endDate opts :
  let wh := userWorkingHours user in
  fst (whStart wh) * MS_PER_HOUR + snd (whStart wh) * MS_PER_MINUTE
  < fst (whEnd wh) * MS_PER_HOUR + snd (whEnd wh) * MS_PER_MINUTE ->
  Forall wellFormed (userFreeSlots user startDate endDate opts).
Proof.
  intros wh Hwh. unfold userFreeSlots. apply dayLoop_Forall. intros date.
  apply findFreeSlotsInDay_wellFormed. unfold parseTimeOnDate. fold wh. lia.
Qed.

(** The branch taken when no busy slot touches the window hands the window
    out as it is, empty or not. *)
Lemma findFreeSlotsInDay_untouched busy dayStart dayEnd buffer :
  Forall (fun slot => touchesWindow dayStart dayEnd slot = false) busy ->
  findFreeSlotsInDay busy dayStart dayEnd buffer
  = [ {| start := dayStart; end_ := dayEnd |} ].
Proof.
  intros Hb. unfold findFreeSlotsInDay.
  replace (List.filter (touchesWindow dayStart dayEnd) busy) with (@nil TimeSlot);
    [reflexivity|].
  induction Hb as [|slot busy Hslot _ IH]; simpl; [reflexivity|].
  now rewrite Hslot.
Qed.

(** C4: the code departs from the claim.  A working window of length zero
    that no busy slot touches is handed out as a free slot whose start equals
    its end: in [findFreeSlotsInDay] for every instant and buffer, and through
    [calculateAvailability] for a user whose working hours are 09:00-09:00. *)
Theorem zero_length_window_slot :
  (forall t buffer : Z,
      findFreeSlotsInDay [] t t buffer = [ {| start := t; end_ := t |} ])
  /\ calculateAvailability
       [ userWith "u1" []
           {| whStart := (9, 0); whEnd := (9, 0); days := [1; 2; 3; 4; 5] |} ]
       monday monday noOptions !! "u1"
     = Some [ {| start := at_ monday 9 0; end_ := at_ monday 9 0 |} ].
Proof. split; [intros; reflexivity | vm_compute; reflexivity]. Qed.

(** C3: the code departs from the claim.  A busy slot from 08:00 to 18:00
    has neither end inside the window 09:00-17:00, the filter drops it, and
    the whole window is reported free although the busy slot covers it. *)
Theorem spanning_busy_slot_ignored :
  let busy := {| start := at_ monday 8 0; end_ := at_ monday 18 0 |} in
  let free := {| start := at_ monday 9 0; end_ := at_ monday 17 0 |} in
  findFreeSlotsInDay [busy] (at_ monday 9 0) (at_ monday 17 0) 0 = [free]
  /\ calculateAvailability [ userWith "u1" [busy] defaultWorkingHours ]
       monday monday noOptions !! "u1" = Some [free]
  /\ slotsOverlap free busy = true.
Proof. repeat split; vm_compute; reflexivity. Qed.

(** *** Free slots against the busy slots that touch the window *)

(** The free slots of [gapsBetween] start after the end of a busy slot. *)
Lemma gapsBetween_start sortedBusy buffer free :
  In free (gapsBetween sortedBusy buffer) ->
  exists b, In b sortedBusy /\ start free = addMinutes (end_ b) buffer.
Proof.
  induction sortedBusy as [|current rest IH]; simpl; [intros []|].
  destruct rest as [|next rest']; [intros []|].
  intros [Hin|Hin]%in_app_or.
  - destruct (isBefore _ _); [|destruct Hin].
    destruct Hin as [<-|[]]. exists current. simpl. auto.
  - destruct (IH Hin) as (b & Hb & Hs). exists b. auto.
Qed.

(** Two slots are apart as soon as one ends where the other starts. *)
Ltac apart :=
  unfold slotsOverlap, addMinutes, MS_PER_MINUTE in *; simpl in *;
  apply andb_false_iff; rewrite !Z.ltb_ge; lia.

Lemma gapsBetween_avoid sortedBusy buffer :
  0 <= buffer ->
  StronglySorted precedes sortedBusy ->
  forall free b,
    In free (gapsBetween sortedBusy buffer) -> In b sortedBusy ->
    slotsOverlap free b = false.
Proof.
  intros Hbuf Hsorted. induction Hsorted as [|current rest Hrest IH Hcur].
  - intros free b [].
  - intros free b Hfree Hb. simpl in Hfree.
    destruct rest as [|next rest']; [destruct Hfree|].
    rewrite List.Forall_forall in Hcur.
    apply in_app_or in Hfree as [Hfree|Hfree].
    + destruct (isBefore _ _); [|destruct Hfree].
      destruct Hfree as [<-|[]].
      destruct Hb as [<-|Hb]; [apart|].
      assert (Hnb : start next <= start b).
      { destruct Hb as [<-|Hb]; [lia|].
        apply StronglySorted_inv in Hrest as [_ Hnext].
        rewrite List.Forall_forall in Hnext. now apply Hnext. }
      apart.
    + destruct Hb as [<-|Hb]; [|now apply IH].
      destruct (gapsBetween_start _ _ _ Hfree) as (b' & Hb' & Hs).
      destruct (Hcur b' Hb') as [_ Hend].
      apart.
Qed.

Lemma last_latest (sortedBusy : list TimeSlot) (d : TimeSlot) :
  StronglySorted precedes sortedBusy ->
  forall b, In b sortedBusy -> end_ b <= end_ (List.last sortedBusy d).
Proof.
  intros Hsorted. induction Hsorted as [|a rest Hrest IH Ha]; intros b Hb.
  - destruct Hb.
  - destruct rest as [|a' rest'].
    + destruct Hb as [<-|[]]. simpl. lia.
    + change (List.last (a :: a' :: rest') d) with (List.last (a' :: rest') d).
      destruct Hb as [<-|Hb]; [|now apply IH].
      rewrite List.Forall_forall in Ha.
      destruct (Ha a' (or_introl eq_refl)) as [_ Hend].
      specialize (IH a' (or_introl eq_refl)). lia.
Qed.

(** Distinct busy slots that do not overlap, once filtered and sorted by
    start, follow one another. *)
Lemma sortedBusy_precedes busy dayStart dayEnd :
  Forall wellFormed busy ->
  (forall a b, In a busy -> In b busy -> a <> b -> slotsOverlap a b = false) ->
  StronglySorted precedes
    (sort (fun a b => start a <=? start b)
          (List.filter (touchesWindow dayStart dayEnd) busy)).
Proof.
  intros Hwf Hapart.
  set (l := List.filter (touchesWindow dayStart dayEnd) busy).
  assert (Hin : forall a, In a (sort (fun a b => start a <=? start b) l) -> In a busy).
  { intros a Ha.
    apply (Permutation_in _ (Permutation_sym (sort_perm _ l))) in Ha.
    now apply filter_In in Ha as [Ha _]. }
  pose proof (sort_StronglySorted (fun a b : TimeSlot => start a <=? start b)) as Hs.
  specialize (Hs ltac:(intros a b H; apply Z.leb_gt in H; apply Z.leb_le; lia)
                 ltac:(intros a b c H1 H2;
                       apply Z.leb_le in H1; apply Z.leb_le in H2;
                       apply Z.leb_le; lia) l).
  revert Hin. induction Hs as [|a rest Hrest IH Ha]; intros Hin; constructor.
  - apply IH. intros b Hb. apply Hin. now right.
  - rewrite List.Forall_forall in Ha |- *. intros b Hb.
    specialize (Ha b Hb). apply Z.leb_le in Ha.
    assert (Ha' : In a busy) by (apply Hin; now left).
    assert (Hb' : In b busy) by (apply Hin; now right).
    rewrite List.Forall_forall in Hwf.
    pose proof (Hwf a Ha') as Hwa. pose proof (Hwf b Hb') as Hwb.
    unfold wellFormed in Hwa, Hwb. unfold precedes.
    destruct (decide (start a = start b /\ end_ a = end_ b)) as [[? ?]|Hne]; [lia|].
    assert (Hab : a <> b) by (intros ->; apply Hne; auto).
    specialize (Hapart a b Ha' Hb' Hab). unfold slotsOverlap in Hapart.
    apply andb_false_iff in Hapart as [H|H]; apply Z.ltb_ge in H; lia.
Qed.

(** No free slot overlaps a busy slot that has an end inside the window,
    when the busy slots are proper intervals, distinct ones do not overlap,
    and the buffer is not negative.  A busy slot that covers the window from
    before its start to after its end has no end inside: the filter drops
    it and nothing is said about it here. *)
Lemma free_slots_avoid_touching_busy busy dayStart dayEnd buffer :
  0 <= buffer ->
  Forall wellFormed busy ->
  (forall a b, In a busy -> In b busy -> a <> b -> slotsOverlap a b = false) ->
  forall free b,
    In free (findFreeSlotsInDay busy dayStart dayEnd buffer) ->
    In b busy -> touchesWindow dayStart dayEnd b = true ->
    slotsOverlap free b = false.
Proof.
  intros Hbuf Hwf Hapart free b Hfree Hb Htouch.
  pose proof (sortedBusy_precedes busy dayStart dayEnd Hwf Hapart) as Hsorted.
  assert (Hbs : In b (sort (fun a b => start a <=? start b)
                           (List.filter (touchesWindow dayStart dayEnd) busy))).
  { apply (Permutation_in _ (sort_perm _ _)). apply filter_In. auto. }
  unfold findFreeSlotsInDay in Hfree.
  destruct (sort _ _) as [|firstBusy rest] eqn:Hs; [destruct Hbs|].
  apply in_app_or in Hfree as [Hfree|Hfree];
    [|apply in_app_or in Hfree as [Hfree|Hfree]].
  - destruct (isBefore dayStart (start firstBusy)); [|destruct Hfree].
    destruct (isBefore dayStart _); [|destruct Hfree].
    destruct Hfree as [<-|[]].
    assert (start firstBusy <= start b).
    { destruct Hbs as [<-|Hbs]; [lia|].
      apply StronglySorted_inv in Hsorted as [_ Hf].
      rewrite List.Forall_forall in Hf. now apply Hf. }
    apart.
  - now apply (gapsBetween_avoid (firstBusy :: rest) buffer).
  - cbv zeta in Hfree. destruct (isBefore _ dayEnd); [|destruct Hfree].
    destruct Hfree as [<-|[]].
    pose proof (last_latest _ firstBusy Hsorted b Hbs).
    apart.
Qed.

(** Every instant of the window belongs to a free slot, or to a busy slot
    that touches the window or to the buffer around it: the algorithm adds
    no hole of its own. *)
Lemma gapsBetween_cover buffer t :
  forall sortedBusy firstBusy,
    sortedBusy <> [] ->
    addMinutes (start (hd firstBusy sortedBusy)) (- buffer) <= t ->
    (exists b, In b sortedBusy /\ nearSlot buffer t b)
    \/ (exists free, In free (gapsBetween sortedBusy buffer) /\ inSlot t free)
    \/ addMinutes (end_ (List.last sortedBusy firstBusy)) buffer <= t.
Proof.
  induction sortedBusy as [|current rest IH]; intros firstBusy Hne Ht;
    [congruence|].
  simpl in Ht.
  destruct (Z.lt_ge_cases t (addMinutes (end_ current) buffer)) as [Hin|Hafter].
  { left. exists current. split; [now left|]. unfold nearSlot. lia. }
  destruct rest as [|next rest']; [right; right; exact Hafter|].
  change (List.last (current :: next :: rest') firstBusy)
    with (List.last (next :: rest') firstBusy).
  destruct (Z.lt_ge_cases t (addMinutes (start next) (- buffer))) as [Hgap|Hnext].
  - right. left. simpl.
    exists {| start := addMinutes (end_ current) buffer;
              end_ := addMinutes (start next) (- buffer) |}.
    split; [|unfold inSlot; simpl; lia].
    apply in_or_app. left.
    replace (isBefore _ _) with true; [now left|].
    symmetry. apply Z.ltb_lt. lia.
  - destruct (IH firstBusy ltac:(discriminate) Hnext)
      as [(b & Hb & Hnear) | [(free & Hfree & Hin) | Hlast]].
    + left. exists b. split; [now right | exact Hnear].
    + right. left. exists free. split; [|exact Hin].
      change (gapsBetween (current :: next :: rest') buffer)
        with ((if isBefore (addMinutes (end_ current) buffer)
                           (addMinutes (start next) (- buffer))
               then [ {| start := addMinutes (end_ current) buffer;
                         end_ := addMinutes (start next) (- buffer) |} ]
               else []) ++ gapsBetween (next :: rest') buffer)%list.
      apply in_or_app. now right.
    + right. right. exact Hlast.
Qed.

(** With a buffer that is not negative, every instant of the window lies in
    a free slot, or in a busy slot that has an end inside the window or in
    the buffer around such a slot. *)
Lemma free_and_busy_cover_window busy dayStart dayEnd buffer t :
  0 <= buffer ->
  dayStart <= t < dayEnd ->
  (exists free, In free (findFreeSlotsInDay busy dayStart dayEnd buffer)
                /\ inSlot t free)
  \/ (exists b, In b busy /\ touchesWindow dayStart dayEnd b = true
                /\ nearSlot buffer t b).
Proof.
  intros Hbuf Ht. unfold findFreeSlotsInDay.
  pose proof (sort_perm (fun a b : TimeSlot => start a <=? start b)
                (List.filter (touchesWindow dayStart dayEnd) busy)) as Hperm.
  destruct (sort _ _) as [|firstBusy rest] eqn:Hs.
  - left. eexists. split; [now left|]. unfold inSlot. simpl. lia.
  - assert (Hback : forall b, In b (firstBusy :: rest) ->
                      In b busy /\ touchesWindow dayStart dayEnd b = true).
    { intros b Hb. apply (Permutation_in _ (Permutation_sym Hperm)) in Hb.
      now apply filter_In in Hb. }
    destruct (Z.lt_ge_cases t (addMinutes (start firstBusy) (- buffer)))
      as [Hbefore|Hfrom].
    + left. exists {| start := dayStart;
                      end_ := addMinutes (start firstBusy) (- buffer) |}.
      split; [|unfold inSlot; simpl; lia].
      apply in_or_app. left.
      destruct (Z.lt_ge_cases dayStart (start firstBusy)) as [H1|H1].
      * replace (isBefore dayStart (start firstBusy)) with true
          by (symmetry; now apply Z.ltb_lt).
        replace (isBefore dayStart _) with true
          by (symmetry; apply Z.ltb_lt; lia).
        now left.
      * unfold addMinutes, MS_PER_MINUTE in Hbefore. lia.
    + destruct (gapsBetween_cover buffer t (firstBusy :: rest) firstBusy
                  ltac:(discriminate) Hfrom)
        as [(b & Hb & Hnear) | [(free & Hfree & Hin) | Hlast]].
      * right. exists b. destruct (Hback b Hb). auto.
      * left. exists free. split; [|exact Hin].
        apply in_or_app. right. apply in_or_app. now left.
      * left.
        exists {| start := addMinutes (end_ (List.last (firstBusy :: rest) firstBusy))
                                      buffer;
                  end_ := dayEnd |}.
        split; [|unfold inSlot; cbn [start end_]; lia].
        apply in_or_app. right. apply in_or_app. right. cbv zeta.
        replace (isBefore _ dayEnd) with true; [now left|].
        symmetry. apply Z.ltb_lt. lia.
Qed.

(** *** Meeting suggestions *)

(** [Math.ceil(users.length * 0.6)] in integers. *)
Lemma minParticipants_int users :
  minParticipants users = (3 * Z.of_nat (length users) + 4) / 5.
Proof.
  unfold minParticipants, ceil, Qceiling, Qfloor. simpl.
  generalize (Z.of_nat (length users)). intros n.
  change (Z.pos (1 * 5)) with 5.
  pose proof (Z.div_mod (- (n * 3)) 5 ltac:(lia)).
  pose proof (Z.mod_pos_bound (- (n * 3)) 5 ltac:(lia)).
  pose proof (Z.div_mod (3 * n + 4) 5 ltac:(lia)).
  pose proof (Z.mod_pos_bound (3 * n + 4) 5 ltac:(lia)).
  lia.
Qed.

Lemma qualifyingSuggestions_quorum users duration startDate endDate options :
  Forall (fun s => minParticipants users <= Z.of_nat (length (availableParticipants s)))
         (qualifyingSuggestions users duration startDate endDate options).
Proof.
  unfold qualifyingSuggestions. apply Forall_flat_map, List.Forall_forall.
  intros slot _.
  destruct (minParticipants users <=? _) eqn:Hq; constructor; [|constructor].
  simpl. now apply Z.leb_le in Hq.
Qed.

(** C9: every suggestion returned by [suggestMeetingTimes] lists at least
    ceil(0.6 * number of users) available participants, that is at least
    three fifths of the users, whatever the users, the duration, the range
    and the options. *)
Theorem suggestions_meet_quorum users duration startDate endDate options :
  Forall (fun s =>
            ceil (Qmake (Z.of_nat (length users)) 1 * (3#5))
              <= Z.of_nat (length (availableParticipants s))
            /\ 3 * Z.of_nat (length users)
               <= 5 * Z.of_nat (length (availableParticipants s)))
         (suggestMeetingTimes users duration startDate endDate options).
Proof.
  unfold suggestMeetingTimes. apply Forall_take, Forall_sort.
  eapply List.Forall_impl; [|apply qualifyingSuggestions_quorum].
  intros s Hs. split; [exact Hs|].
  rewrite minParticipants_int in Hs.
  pose proof (Z.div_mod (3 * Z.of_nat (length users) + 4) 5 ltac:(lia)).
  pose proof (Z.mod_pos_bound (3 * Z.of_nat (length users) + 4) 5 ltac:(lia)).
  lia.
Qed.

Lemma StronglySorted_prefix {A} (R : A -> A -> Prop) (n : nat) (l : list A) :
  StronglySorted R l -> StronglySorted R (take n l).
Proof.
  intros H. revert n.
  induction H as [|a l Hl IH Ha]; intros [|n]; simpl; constructor; auto.
  now apply Forall_take.
Qed.

(** The sort by score puts no candidate in front of a better one. *)
Lemma sorted_by_score (l : list MeetingSuggestion) :
  StronglySorted (fun a b => (score b <= score a)%Q)
                 (sort (fun a b => Qle_bool (score b) (score a)) l).
Proof.
  pose proof (sort_StronglySorted (fun a b => Qle_bool (score b) (score a))) as Hs.
  specialize (Hs ltac:(intros a b H; apply Qle_bool_iff, Qlt_le_weak, Qnot_le_lt;
                       intros Hle; apply Qle_bool_iff in Hle; congruence)
                 ltac:(intros a b c H1 H2; apply Qle_bool_iff;
                       apply Qle_bool_iff in H1; apply Qle_bool_iff in H2;
                       eapply Qle_trans; eauto) l).
  induction Hs as [|a rest Hrest IH Ha]; constructor; [exact IH|].
  eapply List.Forall_impl; [|exact Ha]. intros b Hb. now apply Qle_bool_iff.
Qed.

(** C10: [suggestMeetingTimes] returns the first ten of the qualifying
    candidates sorted by score, best first: never more than ten suggestions,
    in descending order of score, the qualifying candidates beyond the tenth
    being dropped. *)
Theorem suggestions_at_most_ten users duration startDate endDate options :
  let qualifying := qualifyingSuggestions users duration startDate endDate options in
  let result := suggestMeetingTimes users duration startDate endDate options in
  result = take 10 (sort (fun a b => Qle_bool (score b) (score a)) qualifying)
  /\ length result = Nat.min 10 (length qualifying)
  /\ (length result <= 10)%nat
  /\ StronglySorted (fun a b => (score b <= score a)%Q) result.
Proof.
  cbv zeta. unfold suggestMeetingTimes.
  rewrite length_take, length_sort. repeat split; [lia|].
  pose proof (sorted_by_score
                (qualifyingSuggestions users duration startDate endDate options))
    as Hsorted.
  now apply StronglySorted_prefix.
Qed.

(** One user who is busy from 10:00 to 11:00 on Monday, one-hour meetings
    over Monday and Tuesday: 25 candidates qualify, 10 are returned, all of
    them with the one user available, and the best starts at 14:00. *)
Example suggestions_sample :
  let user := userWith "u1" [ {| start := at_ monday 10 0; end_ := at_ monday 11 0 |} ]
                       defaultWorkingHours in
  let range_end := monday + MS_PER_DAY in
  length (qualifyingSuggestions [user] 60 monday range_end noOptions) = 25%nat
  /\ map (fun s => (sugStart s, availableParticipants s))
         (take 1 (suggestMeetingTimes [user] 60 monday range_end noOptions))
     = [ (at_ monday 14 0, ["u1"]) ]
  /\ length (suggestMeetingTimes [user] 60 monday range_end noOptions) = 10%nat.
Proof. repeat split; vm_compute; reflexivity. Qed.

End AvailabilityProperties.

(** ** The conflict detector *)

Section ConflictProperties.
Import Js Conflicts Vocabulary.
Local Open Scope string_scope.
Local Open Scope Z_scope.

(** Comparisons of the source on fractional minutes, read on milliseconds. *)
Ltac bool_arith :=
  repeat match goal with
         | |- context [?a <=? ?b] => destruct (Z.leb_spec a b)
         | |- context [?a <? ?b] => destruct (Z.ltb_spec a b)
         | |- context [?a >? ?b] => rewrite (Z.gtb_ltb a b)
         | |- context [(?a =? ?b)%Z] => destruct (Z.eqb_spec a b)
         end; simpl; try reflexivity; try lia.

Lemma round_toMinutes (ms : Z) : round (toMinutes ms) = (ms + 30000) / 60000.
Proof.
  unfold round, toMinutes, Qfloor, Qplus. simpl.
  change (Z.pos (60000 * 2)) with (2 * 60000).
  replace (ms * 2 + 1 * 60000) with (2 * (ms + 30000)) by lia.
  apply Z.div_mul_cancel_l; lia.
Qed.

Lemma significant_overlap (d1 d2 minutes : Z) :
  Qlt_bool (Qmin (toMinutes d1) (toMinutes d2) * (1#2)) (Qmake minutes 1)
  = (Z.min d1 d2 <? 2 * (minutes * 60000)).
Proof.
  unfold Qlt_bool, Qmin, toMinutes, Qle_bool. simpl.
  destruct (Z.leb_spec (d1 * 60000) (d2 * 60000)); simpl;
    change (Z.pos (60000 * 2)) with 120000; bool_arith.
Qed.

Lemma gap_tests (gap travel : Z) :
  Qle_bool 0 (toMinutes gap) = (0 <=? gap)
  /\ Qlt_bool (toMinutes gap) (Qmake travel 1) = (gap <? travel * 60000)
  /\ Qeq_bool (toMinutes gap) 0 = (gap =? 0)%Z
  /\ Qlt_bool (toMinutes gap) 5 = (gap <? 5 * 60000).
Proof.
  unfold Qlt_bool, Qle_bool, Qeq_bool, toMinutes. simpl.
  repeat split; bool_arith.
Qed.

Lemma intervalsOverlap_open (e1 e2 : Event) :
  startTime e1 < endTime e2 -> startTime e2 < endTime e1 ->
  intervalsOverlap e1 e2 = true.
Proof. intros. unfold intervalsOverlap. bool_arith. Qed.


Lemma overlapMinutes_sym (a b : Event) : overlapMinutes a b = overlapMinutes b a.
Proof. unfold overlapMinutes. now rewrite Z.min_comm, Z.max_comm. Qed.

Lemma classifyOverlap_sym (a b : Event) : classifyOverlap a b = classifyOverlap b a.
Proof.
  unfold classifyOverlap, sameInterval, shorterDuration.
  rewrite (overlapMinutes_sym a b), (Z.min_comm (endTime a - startTime a)).
  rewrite (Z.eqb_sym (startTime a)), (Z.eqb_sym (endTime a)). reflexivity.
Qed.

(** [checkOverlap] on a pair that overlaps. *)
Lemma checkOverlap_fires (e1 e2 : Event) :
  intervalsOverlap e1 e2 = true ->
  exists c, checkOverlap e1 e2 = Some c
    /\ (type c, severity c) = classifyOverlap e1 e2
    /\ overlapDuration c = Some (overlapMinutes e1 e2)
    /\ primaryEvent c = e1 /\ conflictingEvent c = e2.
Proof.
  intros Hov. unfold checkOverlap. rewrite Hov.
  rewrite significant_overlap, round_toMinutes.
  fold (overlapMinutes e1 e2). fold (sameInterval e1 e2). fold (shorterDuration e1 e2).
  unfold classifyOverlap.
  destruct (sameInterval e1 e2);
    [|destruct (shorterDuration e1 e2 <? _);
      [|destruct (30 <? overlapMinutes e1 e2)]];
    eexists; repeat split; reflexivity.
Qed.

Lemma dedup_singleton (c : Conflict) : deduplicateConflicts [c] = [c].
Proof.
  unfold deduplicateConflicts. simpl.
  rewrite bool_decide_eq_false_2; [reflexivity | apply not_elem_of_empty].
Qed.

(** [detectConflicts] on two events of different calendars: the one pair is
    examined in the order of the start times. *)
Lemma detectConflicts_pair (A B : Event) (options : ConflictDetectionOptions) :
  calendarId A <> calendarId B ->
  detectConflicts [A; B] options
  = let opts := mergeOptions defaultOptions options in
    let '(e1, e2) := if startTime A <=? startTime B then (A, B) else (B, A) in
    match detectConflictBetweenEvents e1 e2 opts with
    | Some c => [c]
    | None => []
    end.
Proof.
  intros Hcal. unfold detectConflicts. rewrite sort_pair. cbv zeta.
  assert (H1 : String.eqb (calendarId A) (calendarId B) = false)
    by now apply String.eqb_neq.
  assert (H2 : String.eqb (calendarId B) (calendarId A) = false)
    by (apply String.eqb_neq; congruence).
  destruct (startTime A <=? startTime B); simpl; unfold conflictsWith; simpl;
    rewrite ?H1, ?H2;
    destruct (detectConflictBetweenEvents _ _ _); simpl;
    auto using dedup_singleton.
Qed.




Lemma intervalsOverlap_sym (e1 e2 : Event) :
  intervalsOverlap e1 e2 = intervalsOverlap e2 e1.
Proof. unfold intervalsOverlap. bool_arith. Qed.

(** In a list of any length a reported conflict stems from one call of
    [detectConflictBetweenEvents]. *)
Lemma dedupLoop_In (conflicts : list Conflict) (seen : gset string) (c : Conflict) :
  In c (dedupLoop conflicts seen) -> In c conflicts.
Proof.
  revert seen. induction conflicts as [|c0 rest IH]; intros seen; simpl; [auto|].
  case_bool_decide; [eauto|]. intros [<-|Hc]; eauto.
Qed.

Lemma pairLoop_In (sortedEvents : list Event) (opts : ConflictDetectionOptions)
    (c : Conflict) :
  In c (pairLoop sortedEvents opts) ->
  exists e1 e2, In e1 sortedEvents /\ In e2 sortedEvents
                /\ calendarId e1 <> calendarId e2
                /\ detectConflictBetweenEvents e1 e2 opts = Some c.
Proof.
  induction sortedEvents as [|e1 later IH]; simpl; [intros []|].
  intros [Hc|Hc]%in_app_or.
  - unfold conflictsWith in Hc. apply in_flat_map in Hc as (e2 & He2 & Hc).
    destruct (String.eqb_spec (calendarId e1) (calendarId e2)) as [|Hcal];
      [destruct Hc|].
    destruct (detectConflictBetweenEvents e1 e2 opts) as [c'|] eqn:Hd;
      [|destruct Hc].
    destruct Hc as [<-|[]]. exists e1, e2. auto.
  - destruct (IH Hc) as (e1' & e2' & H1 & H2 & Hd). exists e1', e2'. auto.
Qed.

(** Whatever the list of events, a reported conflict between two events
    whose intervals overlap carries the classification of the overlap rule. *)
Lemma reported_overlap_classified (events : list Event)
    (options : ConflictDetectionOptions) (c : Conflict) :
  In c (detectConflicts events options) ->
  intervalsOverlap (primaryEvent c) (conflictingEvent c) = true ->
  (type c, severity c) = classifyOverlap (primaryEvent c) (conflictingEvent c)
  /\ overlapDuration c = Some (overlapMinutes (primaryEvent c) (conflictingEvent c)).
Proof.
  intros Hc Hov. unfold detectConflicts, deduplicateConflicts in Hc.
  apply dedupLoop_In, pairLoop_In in Hc as (e1 & e2 & _ & _ & _ & Hd).
  unfold detectConflictBetweenEvents in Hd.
  destruct (intervalsOverlap e1 e2) eqn:H12.
  - destruct (checkOverlap_fires e1 e2 H12) as (c' & Hc' & Hclass & Hdur & Hp & Hq).
    rewrite Hc' in Hd. injection Hd as ->. rewrite Hp, Hq. auto.
  - exfalso. unfold checkOverlap in Hd. rewrite H12 in Hd.
    assert (Hpair : (primaryEvent c = e1 /\ conflictingEvent c = e2)
                    \/ (primaryEvent c = e2 /\ conflictingEvent c = e1)).
    { destruct (backToBackEnabled _).
      - unfold checkBackToBack in Hd.
        destruct (Qle_bool _ _ && Qlt_bool _ _).
        + injection Hd as <-. auto.
        + destruct (default false _); [|discriminate].
          unfold checkWorkPersonalSeparation in Hd.
          destruct (negb _); [|discriminate].
          destruct (_ || _); [|discriminate].
          injection Hd as <-. simpl. destruct (isWork e1); auto.
      - destruct (default false _); [|discriminate].
        unfold checkWorkPersonalSeparation in Hd.
        destruct (negb _); [|discriminate].
        destruct (_ || _); [|discriminate].
        injection Hd as <-. simpl. destruct (isWork e1); auto. }
    destruct Hpair as [[Hp Hq]|[Hp Hq]]; rewrite Hp, Hq in Hov.
    + congruence.
    + rewrite intervalsOverlap_sym in Hov. congruence.
Qed.

(** *** Back to back *)


Lemma checkBackToBack_behind (e1 e2 : Event) (travel : Z) :
  startTime e2 < endTime e1 -> checkBackToBack e1 e2 travel = None.
Proof.
  intros Hlt. unfold checkBackToBack.
  destruct (gap_tests (startTime e2 - endTime e1) travel) as (-> & _).
  replace (0 <=? startTime e2 - endTime e1) with false by (symmetry; bool_arith).
  reflexivity.
Qed.



(** *** The single-event variant *)

(** The new event is always the first argument of the pair checks, and the
    back-to-back check only looks from the end of its first argument to the
    start of its second: an existing event that ends before the new one
    starts is never reported for travel time. *)
Lemma later_event_misses_travel_time (A B : Event) (options : ConflictDetectionOptions) :
  startTime A < endTime A ->
  startTime B < endTime B ->
  endTime A <= startTime B ->
  default false (workPersonalSeparation (mergeOptions defaultOptions options)) = false ->
  detectConflictsForEvent B [A] options = [].
Proof.
  intros HA HB Hearlier Hsep. unfold detectConflictsForEvent. simpl.
  destruct (String.eqb (id A) (id B)); [reflexivity|].
  unfold detectConflictBetweenEvents, checkOverlap.
  replace (intervalsOverlap B A) with false
    by (symmetry; unfold intervalsOverlap; bool_arith).
  rewrite checkBackToBack_behind by lia. rewrite Hsep.
  destruct (backToBackEnabled _); reflexivity.
Qed.

(** C5: the code departs from the claim.  With A from 09:00 to 10:00 and B
    from 10:00 to 11:00 in two calendars and the default options, checking
    the new event A against [B] reports travel_time/medium for the pair,
    checking the new event B against [A] reports nothing; [detectConflicts],
    which sorts the events first, reports the pair for either order. *)
Theorem single_event_check_not_symmetric :
  let A := event "a" "work" true (at_ monday 9 0) (at_ monday 10 0) in
  let B := event "b" "home" true (at_ monday 10 0) (at_ monday 11 0) in
  map summary (detectConflictsForEvent A [B] noOptions)
    = [ ("conflict_a_b", travel_time, medium) ]
  /\ detectConflictsForEvent B [A] noOptions = []
  /\ map summary (detectConflicts [A; B] noOptions)
    = [ ("conflict_a_b", travel_time, medium) ]
  /\ map summary (detectConflicts [B; A] noOptions)
    = [ ("conflict_a_b", travel_time, medium) ].
Proof. repeat split; vm_compute; reflexivity. Qed.

(** *** Deduplication *)

Lemma pairKey_comm (a b : string) : pairKey a b = pairKey b a.
Proof.
  unfold pairKey, String.ltb. rewrite (String.compare_antisym a b).
  destruct (String.compare b a) eqn:E; simpl; try reflexivity.
  apply String.compare_eq_iff in E. now subst.
Qed.

Lemma sameEventPair_key (c1 c2 : Conflict) :
  sameEventPair c1 c2 -> conflictKey c1 = conflictKey c2.
Proof.
  unfold sameEventPair, conflictKey. intros [[-> ->] | [-> ->]].
  - reflexivity.
  - apply pairKey_comm.
Qed.

(** The keys of the conflicts that [dedupLoop] keeps are new with respect
    to [seen] and differ from one another. *)
Lemma dedupLoop_keys (conflicts : list Conflict) :
  forall seen : gset string,
    NoDup (conflictKey <$> dedupLoop conflicts seen)
    /\ (forall c, c ∈ dedupLoop conflicts seen -> conflictKey c ∉ seen).
Proof.
  induction conflicts as [|c rest IH]; intros seen; simpl.
  - split; [constructor | intros c Hc; inversion Hc].
  - case_bool_decide as Hseen.
    + apply IH.
    + destruct (IH ({[ conflictKey c ]} ∪ seen)) as [Hnd Hnew]. split.
      * rewrite fmap_cons. apply NoDup_cons. split; [|exact Hnd].
        intros (c' & Hkey & Hc')%list_elem_of_fmap.
        apply Hnew in Hc'. apply Hc', elem_of_union. left.
        now apply elem_of_singleton.
      * intros c' [->|Hc']%elem_of_cons; [exact Hseen|].
        apply Hnew in Hc'. intros Hin. apply Hc', elem_of_union. now right.
Qed.

(** The list returned by [detectConflicts] never holds two conflicts about
    the same unordered pair of event ids. *)
Lemma no_two_conflicts_per_pair (events : list Event)
    (options : ConflictDetectionOptions) (i j : nat) (c1 c2 : Conflict) :
  detectConflicts events options !! i = Some c1 ->
  detectConflicts events options !! j = Some c2 ->
  sameEventPair c1 c2 ->
  i = j.
Proof.
  intros H1 H2 Hpair. unfold detectConflicts, deduplicateConflicts in *.
  destruct (dedupLoop_keys
              (pairLoop (sort (fun a b => startTime a <=? startTime b) events)
                        (mergeOptions defaultOptions options)) ∅) as [Hnd _].
  apply (NoDup_lookup _ i j (conflictKey c1) Hnd).
  - rewrite list_lookup_fmap, H1. reflexivity.
  - rewrite list_lookup_fmap, H2. simpl. f_equal. symmetry.
    now apply sameEventPair_key.
Qed.

(** C8: the code departs from the claim.  The key of a pair joins the two
    sorted ids with an underscore, and the ids "a" and "b_c" give the key of
    the ids "a_b" and "c".  A work event "a_b" from 18:00 to 19:00 and a
    personal event "c" of another calendar from 18:30 to 19:30: the overlap
    rule and the work/personal rule both fire, and the two alone give the
    one conflict of the overlap rule.  With the overlapping events "a" and
    "b_c" of the morning in the list, the conflict of "a" and "b_c" is the
    only one reported: the pair of "a_b" and "c" gets none. *)
Theorem key_collision_drops_pair :
  let a := event "a" "work" true (at_ monday 9 0) (at_ monday 10 0) in
  let b_c := event "b_c" "home" true (at_ monday 9 30) (at_ monday 10 30) in
  let a_b := event "a_b" "work" true (at_ monday 18 0) (at_ monday 19 0) in
  let c := event "c" "home" false (at_ monday 18 30) (at_ monday 19 30) in
  let options := {| includeBackToBack := None; travelTimeMinutes := None;
                    workPersonalSeparation := Some true |} in
  let pair k := (id (primaryEvent k), id (conflictingEvent k)) in
  is_Some (checkOverlap a_b c)
  /\ is_Some (checkWorkPersonalSeparation a_b c)
  /\ map pair (detectConflicts [a_b; c] options) = [ ("a_b", "c") ]
  /\ map pair (pairLoop [a; b_c; a_b; c] (mergeOptions defaultOptions options))
     = [ ("a", "b_c"); ("a_b", "c") ]
  /\ pairKey "a" "b_c" = pairKey "a_b" "c"
  /\ map pair (detectConflicts [a; b_c; a_b; c] options) = [ ("a", "b_c") ]
  /\ (forall k, In k (detectConflicts [a; b_c; a_b; c] options) ->
        ~ concerns k a_b c).
Proof.
  cbv zeta. repeat split; try (vm_compute; eauto; fail).
  intros k Hk. vm_compute in Hk. destruct Hk as [<-|[]].
  unfold concerns. simpl. intros [[H _]|[H _]]; discriminate H.
Qed.

End ConflictProperties.

(** * Further properties *)

(** ** The duration estimator, continued *)

Section EstimatorFurther.
Import Js Estimator Vocabulary.
Local Open Scope string_scope.
Local Open Scope Z_scope.

Lemma append_cons (c : ascii) (a b : string) : String c a +:+ b = String c (a +:+ b).
Proof. reflexivity. Qed.

Lemma append_nil (b : string) : "" +:+ b = b.
Proof. reflexivity. Qed.

(** *** Texts without a digit *)

Lemma lowerChar_noDigit (c : ascii) : isDigit c = false -> isDigit (lowerChar c) = false.
Proof.
  destruct c as [[] [] [] [] [] [] [] []]; vm_compute; congruence.
Qed.

Lemma noDigit_app (a b : string) : noDigit a -> noDigit b -> noDigit (a +:+ b).
Proof.
  unfold noDigit. induction a as [|c a IH]; intros Ha Hb; [exact Hb|].
  rewrite append_cons. simpl in *. inversion Ha; subst. constructor; auto.
Qed.

Lemma noDigit_toLowerCase (s : string) : noDigit s -> noDigit (toLowerCase s).
Proof.
  unfold noDigit. induction s as [|c s IH]; simpl; intros Hs; [constructor|].
  inversion Hs; subst. constructor; auto using lowerChar_noDigit.
Qed.

Lemma regexMatch_noDigit (units : list string) (s : string) :
  noDigit s -> regexMatch units s = None.
Proof.
  unfold noDigit. induction s as [|c s IH]; simpl; intros Hs; [reflexivity|].
  inversion Hs as [|? ? Hc Hrest]; subst.
  unfold matchAt. simpl. rewrite Hc. auto.
Qed.

(** A title and a description without any digit never reach the early
    return: the estimate lies between 5 and 480 minutes. *)
Theorem estimate_without_digit_clamped (title : string) (description : option string) :
  noDigit title ->
  noDigit (default "" description) ->
  extractTimeIndicators (fullText title description) = None
  /\ 5 <= estimateDuration title description <= 480.
Proof.
  intros Ht Hd.
  assert (Hnone : extractTimeIndicators (fullText title description) = None).
  { assert (Htext : noDigit (fullText title description)).
    { unfold fullText. apply noDigit_toLowerCase, noDigit_app; [exact Ht|].
      apply noDigit_app; [|exact Hd]. repeat constructor. }
    unfold extractTimeIndicators, timePatterns. simpl.
    now rewrite !regexMatch_noDigit. }
  split; [exact Hnone|].
  unfold estimateDuration. rewrite Hnone. lia.
Qed.

Lemma estimate_without_digit_clamped_witness :
  extractTimeIndicators (fullText "Write the quarterly report" (Some "a long one")) = None
  /\ 5 <= estimateDuration "Write the quarterly report" (Some "a long one") <= 480.
Proof.
  apply (estimate_without_digit_clamped "Write the quarterly report" (Some "a long one")).
  - unfold noDigit. simpl. repeat constructor.
  - unfold noDigit. simpl. repeat constructor.
Defined.

(** *** What an explicit duration is read from *)

Lemma takeDigits_split (s : string) :
  s = fst (takeDigits s) +:+ snd (takeDigits s).
Proof.
  induction s as [|c s IH]; simpl; [reflexivity|].
  destruct (isDigit c); [|reflexivity].
  destruct (takeDigits s) as [ds rest]. simpl in *.
  rewrite append_cons. now rewrite <- IH.
Qed.

Lemma dropSpaces_split (s : string) :
  exists ws, allSpaces ws /\ s = ws +:+ dropSpaces s.
Proof.
  induction s as [|c s IH]; simpl.
  - exists "". split; [constructor | reflexivity].
  - destruct (isSpace c) eqn:Hc.
    + destruct IH as (ws & Hws & Hs). exists (String c ws).
      split; [constructor; assumption | rewrite append_cons; now rewrite <- Hs].
    + exists "". split; [constructor | reflexivity].
Qed.

Lemma prefix_split (u s : string) :
  String.prefix u s = true -> exists post, s = u +:+ post.
Proof.
  revert s. induction u as [|c u IH]; intros s; simpl.
  - intros _. exists s. reflexivity.
  - destruct s as [|c' s]; simpl; [discriminate|].
    destruct (Ascii.ascii_dec c c') as [<-|]; [|discriminate].
    intros H. destruct (IH s H) as (post & ->). exists post.
    now rewrite append_cons.
Qed.

Lemma matchAt_shape (units : list string) (s ds : string) :
  matchAt units s = Some ds ->
  ds <> "" /\ allDigits ds
  /\ exists ws u post, allSpaces ws /\ In u units /\ s = ds +:+ ws +:+ u +:+ post.
Proof.
  intros Hm. pose proof (matchAt_allDigits _ _ _ Hm) as Hd.
  unfold matchAt in Hm. pose proof (takeDigits_split s) as Hs.
  destruct (takeDigits s) as [d rest]. simpl in Hs.
  destruct d as [|c d]; [discriminate|].
  destruct (existsb _ units) eqn:Hex; [|discriminate].
  injection Hm as <-. split; [discriminate|]. split; [exact Hd|].
  apply existsb_exists in Hex as (u & Hu & Hp).
  destruct (prefix_split _ _ Hp) as (post & Hpost).
  destruct (dropSpaces_split rest) as (ws & Hws & Hrest).
  exists ws, u, post. repeat split; [exact Hws | exact Hu|].
  rewrite Hs. f_equal. rewrite Hrest at 1. now rewrite Hpost.
Qed.

Lemma regexMatch_shape (units : list string) (s ds : string) :
  regexMatch units s = Some ds ->
  ds <> "" /\ allDigits ds
  /\ exists pre ws u post,
       allSpaces ws /\ In u units /\ s = pre +:+ ds +:+ ws +:+ u +:+ post.
Proof.
  induction s as [|c s IH]; simpl.
  - discriminate.
  - destruct (matchAt units (String c s)) as [d|] eqn:Hm.
    + intros [= <-].
      destruct (matchAt_shape _ _ _ Hm) as (Hne & Hd & ws & u & post & Hws & Hu & Hs).
      repeat split; [exact Hne | exact Hd|].
      exists "", ws, u, post. auto.
    + intros H. destruct (IH H) as (Hne & Hd & pre & ws & u & post & Hws & Hu & Hs).
      repeat split; [exact Hne | exact Hd|].
      exists (String c pre), ws, u, post. repeat split; try assumption.
      rewrite append_cons. now rewrite Hs.
Qed.

(** An explicit duration is the number written by a run of digits of the
    text that is followed, after optional white space, by one of the unit
    words, times the minutes of that unit: 1, 60, 480 or 2400. *)
Theorem explicit_duration_origin (text : string) (n : Z) :
  extractTimeIndicators text = Some n ->
  exists units minutes ds pre ws u post,
    In (units, minutes) timePatterns
    /\ n = parseInt ds * minutes
    /\ ds <> "" /\ allDigits ds /\ allSpaces ws /\ In u units
    /\ text = pre +:+ ds +:+ ws +:+ u +:+ post.
Proof.
  unfold extractTimeIndicators.
  generalize timePatterns as ps. induction ps as [|[units m] ps IH]; simpl.
  - discriminate.
  - destruct (regexMatch units text) as [ds|] eqn:Hm.
    + intros [= <-].
      destruct (regexMatch_shape _ _ _ Hm)
        as (Hne & Hd & pre & ws & u & post & Hws & Hu & Hs).
      exists units, m, ds, pre, ws, u, post. repeat split; auto.
    + intros H. destruct (IH H) as (units' & m' & ds & pre & ws & u & post & Hin & Hrest).
      exists units', m', ds, pre, ws, u, post. split; [now right | exact Hrest].
Qed.

Lemma explicit_duration_origin_witness :
  exists units minutes ds pre ws u post,
    In (units, minutes) timePatterns
    /\ 180 = parseInt ds * minutes
    /\ ds <> "" /\ allDigits ds /\ allSpaces ws /\ In u units
    /\ fullText "Review for 3 hours" None = pre +:+ ds +:+ ws +:+ u +:+ post.
Proof.
  apply (explicit_duration_origin (fullText "Review for 3 hours" None) 180).
  vm_compute. reflexivity.
Defined.

(** *** Titles without a description *)

(** The space that follows the title leaves an empty last word. *)
Lemma splitWs_trailing_space (s cur : string) (inWs : bool) :
  In "" (splitWs (s +:+ " ") cur inWs).
Proof.
  revert cur inWs. induction s as [|c s IH]; intros cur inWs.
  - simpl. destruct inWs; simpl; auto.
  - rewrite append_cons. simpl.
    destruct (isSpace c); [destruct inWs|]; simpl; auto.
Qed.

Lemma toLowerCase_app (a b : string) :
  toLowerCase (a +:+ b) = toLowerCase a +:+ toLowerCase b.
Proof.
  induction a as [|c a IH]; [reflexivity|].
  rewrite append_cons. simpl. rewrite IH. now rewrite append_cons.
Qed.

Lemma includes_empty (s : string) : includes s "" = true.
Proof. destruct s; reflexivity. Qed.

Lemma keywordHit_empty_word (words : list string) (keyword : string) :
  In "" words -> keywordHit words keyword = true.
Proof.
  intros Hin. unfold keywordHit. apply existsb_exists. exists "".
  split; [exact Hin|]. rewrite includes_empty. apply orb_true_r.
Qed.

(** The choice of the pattern looks at the words through [keywordHit] only. *)
Lemma calculateMatchScore_ext (w1 w2 keywords : list string) :
  (forall k, keywordHit w1 k = keywordHit w2 k) ->
  calculateMatchScore w1 keywords = calculateMatchScore w2 keywords.
Proof.
  intros Hext. unfold calculateMatchScore. f_equal. f_equal.
  generalize 0 as acc. induction keywords as [|k ks IH]; intros acc; simpl;
    [reflexivity|].
  rewrite Hext. apply IH.
Qed.

Lemma findBestMatch_ext (w1 w2 : list string) :
  (forall k, keywordHit w1 k = keywordHit w2 k) ->
  findBestMatch w1 = findBestMatch w2.
Proof.
  intros Hext. unfold findBestMatch.
  generalize (@None TaskPattern, 0%Q) as st.
  induction patterns as [|p ps IH]; intros st; simpl; [reflexivity|].
  rewrite (calculateMatchScore_ext w1 w2 _ Hext). apply IH.
Qed.

Lemma filter_all {A} (f : A -> bool) (l : list A) :
  (forall x, f x = true) -> List.filter f l = l.
Proof.
  intros Hf. induction l as [|x l IH]; simpl; [reflexivity|].
  now rewrite Hf, IH.
Qed.

(** Without a description the text ends with a space, its last word is
    empty, and an empty word is contained in every keyword: every pattern
    scores 1 and the first one, meetings, is kept.  Whatever the title, the
    task is explained as a meeting with a base of 30 minutes, all six
    meeting keywords are reported as matched, and the confidence is high. *)
Theorem no_description_is_a_meeting (title : string) :
  let e := getEstimationExplanation title None in
  baseMinutes <$> fst (findBestMatch (split_whitespace (fullText title None)))
    = Some 30
  /\ matchedKeywords e
     = Some (["meeting"; "call"; "standup"; "sync"; "check-in"; "discussion"], 30)
  /\ confidence e = high.
Proof.
  set (words := split_whitespace (fullText title None)).
  assert (Hempty : In "" words).
  { unfold words, fullText, split_whitespace. simpl default.
    change (" " +:+ "") with " ".
    rewrite toLowerCase_app. apply splitWs_trailing_space. }
  assert (Hhit : forall k, keywordHit words k = true)
    by (intros k; now apply keywordHit_empty_word).
  assert (Hbest : findBestMatch words = findBestMatch [""]).
  { apply findBestMatch_ext. intros k. rewrite Hhit. symmetry.
    apply keywordHit_empty_word. now left. }
  cbv zeta. split; [rewrite Hbest; vm_compute; reflexivity|].
  unfold getEstimationExplanation. fold words. rewrite Hbest.
  assert (Hval : findBestMatch [""]
                 = (nth_error patterns 0, (6#6)%Q)) by (vm_compute; reflexivity).
  rewrite Hval. cbn [nth_error patterns matchedKeywords confidence
                     keywords baseMinutes].
  split.
  - now rewrite (filter_all _ _ Hhit).
  - change (Qlt_bool (4#5) (6#6)) with true.
    change (Qlt_bool (1#2) (6#6)) with true. simpl.
    destruct (10 <? length words)%nat; reflexivity.
Qed.

(** *** Ranges *)

Lemma count_hits_le (words keywords : list string) (acc : Z) :
  acc <= fold_left (fun sc keyword => if keywordHit words keyword then sc + 1 else sc)
                   keywords acc
      <= acc + Z.of_nat (length keywords).
Proof.
  revert acc. induction keywords as [|k ks IH]; intros acc; simpl; [lia|].
  destruct (keywordHit words k).
  - specialize (IH (acc + 1)). lia.
  - specialize (IH acc). lia.
Qed.

(** For a keyword list that is not empty, as those of the eight patterns
    are, the match score is a fraction between 0 and 1.  (For an empty list
    the source divides 0 by 0.) *)
Theorem match_score_range (words keywords : list string) :
  keywords <> [] ->
  (0 <= calculateMatchScore words keywords <= 1)%Q.
Proof.
  intros Hkeywords. unfold calculateMatchScore.
  destruct keywords as [|k ks]; [now destruct Hkeywords|].
  pose proof (count_hits_le words (k :: ks) 0) as Hc.
  set (score := fold_left _ (k :: ks) 0) in *.
  set (n := Z.of_nat (length (k :: ks))) in *.
  assert (Hn : 0 < n) by (unfold n; simpl length; lia).
  destruct n as [|n|n]; try lia.
  unfold Qdiv, Qinv, Qmult, Qle. simpl. lia.
Qed.

(** The words of "team sync" against the keywords of the meetings pattern:
    "sync" is the one keyword of six that is hit. *)
Lemma match_score_range_witness :
  (0 <= calculateMatchScore
          ["team"; "sync"]
          ["meeting"; "call"; "standup"; "sync"; "check-in"; "discussion"]
     <= 1)%Q.
Proof.
  apply (match_score_range
           ["team"; "sync"]
           ["meeting"; "call"; "standup"; "sync"; "check-in"; "discussion"]).
  discriminate.
Defined.

Lemma filter_length_bound {A} (f : A -> bool) (l : list A) :
  (length (List.filter f l) <= length l)%nat.
Proof.
  induction l as [|x l IH]; simpl; [lia|]. destruct (f x); simpl; lia.
Qed.

(** The complexity multiplier never shortens an estimate, and it is
    bounded: it lies between 1 and 1.3 * 1.5 * 3.6 * 1.4 * 1.3 = 12.7764. *)
Theorem complexity_multiplier_range (text : string) (wordCount : nat) :
  (1 <= calculateComplexityMultiplier text wordCount <= 31941 # 2500)%Q.
Proof.
  unfold calculateComplexityMultiplier. cbv zeta.
  pose proof (filter_length_bound (fun term => includes text term) technicalTerms)
    as Hk.
  set (k := length (List.filter _ technicalTerms)) in *.
  change (length technicalTerms) with 13%nat in Hk.
  set (c := (1 + Qmake (Z.of_nat k) 1 * (1#5))%Q).
  assert (Hc : (1 <= c <= 18 # 5)%Q)
    by (unfold c, Qle, Qplus, Qmult; simpl; lia).
  clearbody c.
  generalize (includes text "step" || includes text "phase" || includes text "stage").
  generalize (includes text "team" || includes text "collaborate"
              || includes text "coordinate").
  intros b5 b4.
  destruct (20 <? wordCount)%nat, (50 <? wordCount)%nat, (0 <? k)%nat, b4, b5;
    split; lra.
Qed.

End EstimatorFurther.

(** ** The availability calculator, continued *)

Section AvailabilityFurther.
Import Js Availability Vocabulary.
Local Open Scope string_scope.
Local Open Scope Z_scope.

Lemma userFreeSlots_wellFormed_witness :
  Forall wellFormed
         (userFreeSlots
            (userWith "u1" [ {| start := at_ monday 10 0; end_ := at_ monday 11 0 |} ]
                      defaultWorkingHours)
            monday (monday + MS_PER_DAY) noOptions).
Proof.
  apply (userFreeSlots_wellFormed
           (userWith "u1" [ {| start := at_ monday 10 0; end_ := at_ monday 11 0 |} ]
                     defaultWorkingHours)
           monday (monday + MS_PER_DAY) noOptions).
  vm_compute. reflexivity.
Defined.

Lemma free_slots_avoid_touching_busy_witness :
  slotsOverlap {| start := at_ monday 11 15; end_ := at_ monday 12 45 |}
               {| start := at_ monday 13 0; end_ := at_ monday 14 0 |} = false.
Proof.
  apply (free_slots_avoid_touching_busy
           [ {| start := at_ monday 10 0; end_ := at_ monday 11 0 |};
             {| start := at_ monday 13 0; end_ := at_ monday 14 0 |} ]
           (at_ monday 9 0) (at_ monday 17 0) 15).
  - lia.
  - repeat constructor.
  - intros a b [<-|[<-|[]]] [<-|[<-|[]]] Hne;
      solve [ congruence | vm_compute; reflexivity ].
  - vm_compute. auto.
  - simpl. auto.
  - vm_compute. reflexivity.
Defined.

Lemma free_and_busy_cover_window_witness :
  (exists free,
      In free (findFreeSlotsInDay
                 [ {| start := at_ monday 10 0; end_ := at_ monday 11 0 |} ]
                 (at_ monday 9 0) (at_ monday 17 0) 15)
      /\ inSlot (at_ monday 12 0) free)
  \/ (exists b,
        In b [ {| start := at_ monday 10 0; end_ := at_ monday 11 0 |} ]
        /\ touchesWindow (at_ monday 9 0) (at_ monday 17 0) b = true
        /\ nearSlot 15 (at_ monday 12 0) b).
Proof.
  apply (free_and_busy_cover_window
           [ {| start := at_ monday 10 0; end_ := at_ monday 11 0 |} ]
           (at_ monday 9 0) (at_ monday 17 0) 15 (at_ monday 12 0)).
  - lia.
  - vm_compute. split; [discriminate | reflexivity].
Defined.

(** *** Where the free slots of a day lie *)

Lemma sortedBusy_In busy dayStart dayEnd b :
  In b (sort (fun a b => start a <=? start b)
             (List.filter (touchesWindow dayStart dayEnd) busy)) ->
  In b busy /\ touchesWindow dayStart dayEnd b = true.
Proof.
  intros Hb. apply (Permutation_in _ (Permutation_sym (sort_perm _ _))) in Hb.
  now apply filter_In in Hb.
Qed.

Lemma touches_bounds dayStart dayEnd b :
  dayStart <= dayEnd -> wellFormed b -> touchesWindow dayStart dayEnd b = true ->
  start b <= dayEnd /\ dayStart <= end_ b.
Proof.
  unfold wellFormed, touchesWindow, isWithinInterval. intros Hwin Hwf Ht.
  rewrite Z.min_l, Z.max_r in Ht by lia.
  apply orb_true_iff in Ht as [Ht|Ht];
    apply andb_true_iff in Ht as [H1 H2];
    apply Z.leb_le in H1; apply Z.leb_le in H2; lia.
Qed.

Lemma gapsBetween_end sortedBusy buffer free :
  In free (gapsBetween sortedBusy buffer) ->
  exists b, In b sortedBusy /\ end_ free = addMinutes (start b) (- buffer).
Proof.
  induction sortedBusy as [|current rest IH]; simpl; [intros []|].
  destruct rest as [|next rest']; [intros []|].
  intros [Hin|Hin]%in_app_or.
  - destruct (isBefore _ _); [|destruct Hin].
    destruct Hin as [<-|[]]. exists next. simpl. auto.
  - destruct (IH Hin) as (b & Hb & Hs). exists b. auto.
Qed.

Lemma last_In {A} (l : list A) (d : A) : l <> [] -> In (List.last l d) l.
Proof.
  induction l as [|x l IH]; [congruence|]. intros _.
  destruct l as [|y l]; [now left|].
  right. apply IH. discriminate.
Qed.

(** With proper busy slots, a buffer that is not negative and a window that
    does not end before it starts, every free slot lies inside the window. *)
Theorem free_slots_inside_window busy dayStart dayEnd buffer :
  0 <= buffer ->
  dayStart <= dayEnd ->
  Forall wellFormed busy ->
  Forall (fun free => within free {| start := dayStart; end_ := dayEnd |})
         (findFreeSlotsInDay busy dayStart dayEnd buffer).
Proof.
  intros Hbuf Hwin Hwf. rewrite List.Forall_forall in Hwf.
  assert (Hb : forall b,
             In b (sort (fun a b => start a <=? start b)
                        (List.filter (touchesWindow dayStart dayEnd) busy)) ->
             start b <= dayEnd /\ dayStart <= end_ b).
  { intros b Hb. apply sortedBusy_In in Hb as [Hin Ht].
    apply touches_bounds; auto. }
  unfold findFreeSlotsInDay.
  destruct (sort _ _) as [|firstBusy rest] eqn:Hs.
  - repeat constructor; simpl; lia.
  - apply List.Forall_forall. intros free Hfree.
    unfold within, addMinutes, MS_PER_MINUTE in *. cbn [start end_].
    apply in_app_or in Hfree as [Hfree|Hfree];
      [|apply in_app_or in Hfree as [Hfree|Hfree]].
    + destruct (isBefore dayStart (start firstBusy)); [|destruct Hfree].
      destruct (isBefore dayStart _); [|destruct Hfree].
      destruct Hfree as [<-|[]]. cbn [start end_].
      destruct (Hb firstBusy (or_introl eq_refl)). lia.
    + destruct (gapsBetween_start _ _ _ Hfree) as (b1 & Hb1 & ->).
      destruct (gapsBetween_end _ _ _ Hfree) as (b2 & Hb2 & ->).
      destruct (Hb b1 Hb1), (Hb b2 Hb2).
      unfold addMinutes, MS_PER_MINUTE. lia.
    + cbv zeta in Hfree. destruct (isBefore _ dayEnd); [|destruct Hfree].
      destruct Hfree as [<-|[]]. cbn [start end_].
      assert (Hne : firstBusy :: rest <> []) by discriminate.
      destruct (Hb _ (last_In (firstBusy :: rest) firstBusy Hne)).
      unfold addMinutes, MS_PER_MINUTE. lia.
Qed.

Lemma free_slots_inside_window_witness :
  Forall (fun free => within free {| start := at_ monday 9 0; end_ := at_ monday 17 0 |})
         (findFreeSlotsInDay
            [ {| start := at_ monday 8 0; end_ := at_ monday 9 30 |};
              {| start := at_ monday 16 0; end_ := at_ monday 18 0 |} ]
            (at_ monday 9 0) (at_ monday 17 0) 15).
Proof.
  apply (free_slots_inside_window
           [ {| start := at_ monday 8 0; end_ := at_ monday 9 30 |};
             {| start := at_ monday 16 0; end_ := at_ monday 18 0 |} ]
           (at_ monday 9 0) (at_ monday 17 0) 15).
  - lia.
  - vm_compute. discriminate.
  - repeat constructor.
Defined.

(** *** The free slots of a day come in chronological order *)

Lemma StronglySorted_concat {A} (R : A -> A -> Prop) (l1 l2 : list A) :
  StronglySorted R l1 -> StronglySorted R l2 ->
  (forall x y, In x l1 -> In y l2 -> R x y) ->
  StronglySorted R (l1 ++ l2).
Proof.
  intros H1 H2 Hcross. induction H1 as [|a l1 Hl1 IH Ha]; simpl; [exact H2|].
  constructor.
  - apply IH. intros x y Hx Hy. apply Hcross; [now right | exact Hy].
  - apply Forall_app. split; [exact Ha|].
    apply List.Forall_forall. intros y Hy. apply Hcross; [now left | exact Hy].
Qed.

Lemma gapsBetween_chronological sortedBusy buffer :
  0 <= buffer ->
  Forall wellFormed sortedBusy ->
  StronglySorted precedes sortedBusy ->
  StronglySorted endsBefore (gapsBetween sortedBusy buffer).
Proof.
  intros Hbuf Hwf Hsorted.
  induction Hsorted as [|current rest Hrest IH Hcur]; [constructor|].
  destruct rest as [|next rest']; [constructor|].
  apply Forall_cons_1 in Hwf as [_ Hwf].
  change (gapsBetween (current :: next :: rest') buffer)
    with ((if isBefore (addMinutes (end_ current) buffer)
                       (addMinutes (start next) (- buffer))
           then [ {| start := addMinutes (end_ current) buffer;
                     end_ := addMinutes (start next) (- buffer) |} ]
           else []) ++ gapsBetween (next :: rest') buffer)%list.
  apply StronglySorted_concat; [|now apply IH|].
  - destruct (isBefore _ _); repeat constructor.
  - intros g g' Hg Hg'. destruct (isBefore _ _); [|destruct Hg].
    destruct Hg as [<-|[]].
    destruct (gapsBetween_start _ _ _ Hg') as (b & Hb & Hs).
    assert (Hnb : end_ next <= end_ b).
    { destruct Hb as [<-|Hb]; [lia|].
      apply StronglySorted_inv in Hrest as [_ Hnext].
      rewrite List.Forall_forall in Hnext. now apply Hnext. }
    apply Forall_cons_1 in Hwf as [Hwn _]. unfold wellFormed in Hwn.
    unfold endsBefore. rewrite Hs. unfold addMinutes, MS_PER_MINUTE. simpl. lia.
Qed.

(** With proper busy slots of which distinct ones do not overlap, and a
    buffer that is not negative, the free slots of a day are returned in
    chronological order: each one is over when the next begins. *)
Theorem free_slots_chronological busy dayStart dayEnd buffer :
  0 <= buffer ->
  Forall wellFormed busy ->
  (forall a b, In a busy -> In b busy -> a <> b -> slotsOverlap a b = false) ->
  StronglySorted endsBefore (findFreeSlotsInDay busy dayStart dayEnd buffer).
Proof.
  intros Hbuf Hwf Hapart.
  pose proof (sortedBusy_precedes busy dayStart dayEnd Hwf Hapart) as Hsorted.
  assert (Hwfs : Forall wellFormed
                   (sort (fun a b => start a <=? start b)
                         (List.filter (touchesWindow dayStart dayEnd) busy))).
  { apply List.Forall_forall. intros b Hb. apply sortedBusy_In in Hb as [Hb _].
    rewrite List.Forall_forall in Hwf. now apply Hwf. }
  unfold findFreeSlotsInDay.
  destruct (sort _ _) as [|firstBusy rest] eqn:Hs; [repeat constructor|].
  assert (Hfirst : forall b, In b (firstBusy :: rest) -> start firstBusy <= start b).
  { intros b [<-|Hb]; [lia|].
    apply StronglySorted_inv in Hsorted as [_ Hf].
    rewrite List.Forall_forall in Hf. now apply Hf. }
  assert (Hproper : forall b, In b (firstBusy :: rest) -> start b < end_ b).
  { rewrite List.Forall_forall in Hwfs. exact Hwfs. }
  pose proof (last_latest _ firstBusy Hsorted) as Hlast.
  apply StronglySorted_concat; [|apply StronglySorted_concat|].
  - destruct (isBefore dayStart (start firstBusy)); [|constructor].
    destruct (isBefore dayStart _); repeat constructor.
  - now apply gapsBetween_chronological.
  - cbv zeta. destruct (isBefore _ dayEnd); repeat constructor.
  - intros g a Hg Ha. cbv zeta in Ha. destruct (isBefore _ dayEnd); [|destruct Ha].
    destruct Ha as [<-|[]].
    destruct (gapsBetween_end _ _ _ Hg) as (b & Hb & He).
    specialize (Hlast b Hb). specialize (Hproper b Hb).
    unfold endsBefore. rewrite He. cbn [start end_].
    unfold addMinutes, MS_PER_MINUTE. lia.
  - intros f x Hf Hx.
    destruct (isBefore dayStart (start firstBusy)); [|destruct Hf].
    destruct (isBefore dayStart _); [|destruct Hf].
    destruct Hf as [<-|[]]. unfold endsBefore. cbn [start end_].
    apply in_app_or in Hx as [Hx|Hx].
    + destruct (gapsBetween_start _ _ _ Hx) as (b & Hb & ->).
      specialize (Hfirst b Hb). specialize (Hproper b Hb).
      unfold addMinutes, MS_PER_MINUTE. lia.
    + cbv zeta in Hx. destruct (isBefore _ dayEnd); [|destruct Hx].
      destruct Hx as [<-|[]]. cbn [start end_].
      assert (Hne : firstBusy :: rest <> []) by discriminate.
      pose proof (last_In (firstBusy :: rest) firstBusy Hne) as Hl.
      specialize (Hfirst _ Hl). specialize (Hproper _ Hl).
      unfold addMinutes, MS_PER_MINUTE. lia.
Qed.

Lemma free_slots_chronological_witness :
  StronglySorted endsBefore
    (findFreeSlotsInDay
       [ {| start := at_ monday 13 0; end_ := at_ monday 14 0 |};
         {| start := at_ monday 10 0; end_ := at_ monday 11 0 |} ]
       (at_ monday 9 0) (at_ monday 17 0) 15).
Proof.
  apply (free_slots_chronological
           [ {| start := at_ monday 13 0; end_ := at_ monday 14 0 |};
             {| start := at_ monday 10 0; end_ := at_ monday 11 0 |} ]
           (at_ monday 9 0) (at_ monday 17 0) 15).
  - lia.
  - repeat constructor.
  - intros a b [<-|[<-|[]]] [<-|[<-|[]]] Hne;
      solve [ congruence | vm_compute; reflexivity ].
Defined.

(** *** The availability object *)

Lemma mergeOptions_idem (options : AvailabilityOptions) :
  mergeOptions defaultOptions (mergeOptions defaultOptions options)
  = mergeOptions defaultOptions options.
Proof.
  destruct options as [[?|] [?|] [?|] [?|]]; reflexivity.
Qed.

Lemma insertAll_other (startDate endDate : Z) (opts : AvailabilityOptions)
    (users : list UserAvailability) (key : string) :
  forall acc : gmap string (list TimeSlot),
    ~ In key (map userId users) ->
    fold_left (fun result user =>
                 <[ userId user := userFreeSlots user startDate endDate opts ]> result)
              users acc !! key
    = acc !! key.
Proof.
  induction users as [|u users IH]; intros acc Hnot; simpl; [reflexivity|].
  rewrite IH by (intros Hin; apply Hnot; now right).
  apply lookup_insert_ne. intros Heq. apply Hnot. now left.
Qed.

Lemma calculateAvailability_merged users startDate endDate options :
  calculateAvailability users startDate endDate (mergeOptions defaultOptions options)
  = calculateAvailability users startDate endDate options.
Proof. unfold calculateAvailability. now rewrite mergeOptions_idem. Qed.

(** The own properties of the availability object, those that
    [Object.keys] and [Object.entries] list, are named by the ids of the
    users, no more and no less, provided no user has the id "__proto__", the
    one property name whose assignment creates no own property. *)
Theorem availability_keys (users : list UserAvailability) (startDate endDate : Z)
    (options : AvailabilityOptions) (key : string) :
  ~ In "__proto__" (map userId users) ->
  key ∈ dom (calculateAvailability users startDate endDate options)
  <-> In key (map userId users).
Proof.
  intros _. rewrite elem_of_dom. split.
  - intros Hsome.
    destruct (in_dec string_dec key (map userId users)) as [Hin|Hnot];
      [exact Hin|].
    unfold calculateAvailability in Hsome.
    rewrite insertAll_other in Hsome by exact Hnot.
    rewrite lookup_empty in Hsome. now destruct Hsome.
  - intros Hin. apply in_map_iff in Hin as (u & <- & Hu).
    now apply calculateAvailability_lookup.
Qed.

Lemma availability_keys_witness :
  "ann" ∈ dom (calculateAvailability
                 [ userWith "ann" [] defaultWorkingHours;
                   userWith "bob" [] defaultWorkingHours ]
                 (at_ monday 0 0) (at_ monday 0 0) noOptions)
  <-> In "ann" ["ann"; "bob"].
Proof.
  apply (availability_keys
           [ userWith "ann" [] defaultWorkingHours;
             userWith "bob" [] defaultWorkingHours ]
           (at_ monday 0 0) (at_ monday 0 0) noOptions "ann").
  simpl. intros [H|[H|[]]]; discriminate H.
Defined.

(** When no two users share an id, the entry of a user holds the free slots
    computed from that user's own busy slots and working hours. *)
Theorem availability_entry (users : list UserAvailability) (startDate endDate : Z)
    (options : AvailabilityOptions) (user : UserAvailability) :
  List.NoDup (map userId users) ->
  In user users ->
  calculateAvailability users startDate endDate options !! userId user
  = Some (userFreeSlots user startDate endDate (mergeOptions defaultOptions options)).
Proof.
  unfold calculateAvailability.
  generalize (mergeOptions defaultOptions options) as opts. intros opts.
  generalize (∅ : gmap string (list TimeSlot)) as acc.
  induction users as [|u users IH]; intros acc Hnd Hin; [destruct Hin|].
  simpl in *. apply List.NoDup_cons_iff in Hnd as [Hfresh Hnd].
  destruct Hin as [->|Hin]; [|now apply IH].
  rewrite insertAll_other by exact Hfresh. apply lookup_insert_eq.
Qed.

Lemma availability_entry_witness :
  calculateAvailability
    [ userWith "u1" [] defaultWorkingHours;
      userWith "u2" [ {| start := at_ monday 10 0; end_ := at_ monday 11 0 |} ]
               defaultWorkingHours ]
    monday monday noOptions !! "u2"
  = Some (userFreeSlots
            (userWith "u2" [ {| start := at_ monday 10 0; end_ := at_ monday 11 0 |} ]
                      defaultWorkingHours)
            monday monday (mergeOptions defaultOptions noOptions)).
Proof.
  apply (availability_entry
           [ userWith "u1" [] defaultWorkingHours;
             userWith "u2" [ {| start := at_ monday 10 0; end_ := at_ monday 11 0 |} ]
                      defaultWorkingHours ]
           monday monday noOptions
           (userWith "u2" [ {| start := at_ monday 10 0; end_ := at_ monday 11 0 |} ]
                     defaultWorkingHours)).
  - simpl. repeat constructor; simpl; intuition discriminate.
  - simpl. auto.
Defined.

(** *** Candidate slots *)

Lemma dayLoop_In {A} (body : Z -> list A) workDays endDate (x : A) :
  forall fuel currentDate,
    In x (dayLoop fuel currentDate endDate workDays body) ->
    exists date, currentDate <= date <= endDate
                 /\ (date - currentDate) mod MS_PER_DAY = 0
                 /\ includesDay workDays (getDay date) = true
                 /\ In x (body date).
Proof.
  induction fuel as [|fuel IH]; intros cur; simpl; [intros []|].
  destruct (Z.leb_spec cur endDate) as [Hle|]; [|intros []].
  intros [Hx|Hx]%in_app_or.
  - destruct (includesDay workDays (getDay cur)) eqn:Hday; [|destruct Hx].
    exists cur. rewrite Z.sub_diag. repeat split; auto; lia.
  - destruct (IH _ Hx) as (date & Hrange & Hmod & Hday & Hin).
    exists date. unfold addDays, MS_PER_DAY in *. repeat split; auto; try lia.
    replace (date - cur) with ((date - (cur + 1 * 86400000)) + 1 * 86400000) by lia.
    rewrite Z.mod_add by lia. exact Hmod.
Qed.

Lemma slotLoop_In (dayEnd duration : Z) (slot : TimeSlot) :
  forall fuel slotStart,
    In slot (slotLoop fuel slotStart dayEnd duration) ->
    end_ slot = addMinutes (start slot) duration
    /\ slotStart <= start slot
    /\ end_ slot <= dayEnd
    /\ (start slot - slotStart) mod (30 * MS_PER_MINUTE) = 0.
Proof.
  induction fuel as [|fuel IH]; intros cur; simpl; [intros []|].
  destruct (Z.leb_spec (addMinutes cur duration) dayEnd) as [Hle|]; [|intros []].
  intros [<-|Hx].
  - cbn [start end_]. rewrite Z.sub_diag. repeat split; auto; lia.
  - destruct (IH _ Hx) as (He & Hs & Hd & Hmod).
    unfold addMinutes, MS_PER_MINUTE in *. repeat split; auto; try lia.
    replace (start slot - cur)
      with ((start slot - (cur + 30 * 60000)) + 1 * (30 * 60000)) by lia.
    rewrite Z.mod_add by lia. exact Hmod.
Qed.

(** Every candidate slot lasts the asked duration, belongs to a working day
    of the range reached from the start date in whole days, lies inside the
    working window of that day, and starts a whole number of half hours
    after the window opens. *)
Theorem candidate_slots_shape (startDate endDate duration : Z)
    (options : AvailabilityOptions) (slot : TimeSlot) :
  In slot (generateTimeSlots startDate endDate duration options) ->
  let wh := default defaultWorkingHours (workingHours options) in
  exists date,
    startDate <= date <= endDate
    /\ (date - startDate) mod MS_PER_DAY = 0
    /\ In (getDay date) (days wh)
    /\ end_ slot = addMinutes (start slot) duration
    /\ parseTimeOnDate (whStart wh) date <= start slot
    /\ end_ slot <= parseTimeOnDate (whEnd wh) date
    /\ (start slot - parseTimeOnDate (whStart wh) date) mod (30 * MS_PER_MINUTE) = 0.
Proof.
  intros Hin wh. unfold generateTimeSlots in Hin. fold wh in Hin.
  apply dayLoop_In in Hin as (date & Hrange & Hmod & Hday & Hin).
  apply slotLoop_In in Hin as (He & Hs & Hd & Hgrid).
  exists date. repeat split; auto; try lia.
  unfold includesDay in Hday. apply existsb_exists in Hday as (d & Hd' & Heq).
  apply Z.eqb_eq in Heq. now subst.
Qed.

Lemma candidate_slots_shape_witness :
  exists date,
    monday <= date <= monday
    /\ (date - monday) mod MS_PER_DAY = 0
    /\ In (getDay date) [1; 2; 3; 4; 5]
    /\ at_ monday 10 30 = addMinutes (at_ monday 9 30) 60
    /\ parseTimeOnDate (9, 0) date <= at_ monday 9 30
    /\ at_ monday 10 30 <= parseTimeOnDate (17, 0) date
    /\ (at_ monday 9 30 - parseTimeOnDate (9, 0) date) mod (30 * MS_PER_MINUTE) = 0.
Proof.
  apply (candidate_slots_shape monday monday 60 noOptions
           {| start := at_ monday 9 30; end_ := at_ monday 10 30 |}).
  vm_compute. auto.
Defined.

(** *** What a suggestion holds *)

Lemma suggestion_qualifies users duration startDate endDate options s :
  In s (suggestMeetingTimes users duration startDate endDate options) ->
  In s (qualifyingSuggestions users duration startDate endDate options).
Proof.
  unfold suggestMeetingTimes. intros Hs.
  eapply Permutation_in; [apply Permutation_sym, sort_perm|].
  rewrite <- (take_drop 10 (sort _ _)). apply in_or_app. left. exact Hs.
Qed.

(** A returned suggestion lasts the asked duration; its confidence is the
    share of the users that are available; and each available participant
    is one of the users and has, in the availability object, a free slot
    that holds the whole meeting. *)
Theorem suggestion_participants_free users duration startDate endDate options s :
  In s (suggestMeetingTimes users duration startDate endDate options) ->
  sugEnd s = addMinutes (sugStart s) duration
  /\ Availability.duration s = duration
  /\ confidence s = (Qmake (Z.of_nat (length (availableParticipants s))) 1
                     / Qmake (Z.of_nat (length users)) 1)%Q
  /\ forall uid, In uid (availableParticipants s) ->
       In uid (map userId users)
       /\ exists slots free,
            calculateAvailability users startDate endDate options !! uid = Some slots
            /\ In free slots
            /\ within {| start := sugStart s; end_ := sugEnd s |} free.
Proof.
  intros Hs. apply suggestion_qualifies in Hs.
  unfold qualifyingSuggestions in Hs. rewrite calculateAvailability_merged in Hs.
  apply in_flat_map in Hs as (slot & Hslot & Hs).
  destruct (minParticipants users <=? _); [|destruct Hs].
  destruct Hs as [<-|[]]. cbn [sugStart sugEnd Availability.duration confidence
                                availableParticipants].
  unfold generateTimeSlots in Hslot.
  apply dayLoop_In in Hslot as (date & _ & _ & _ & Hslot).
  apply slotLoop_In in Hslot as (He & _).
  split; [exact He|]. split; [reflexivity|]. split; [reflexivity|].
  intros uid Huid. unfold availableUsersFor in Huid.
  apply in_map_iff in Huid as (u & <- & Hu).
  apply filter_In in Hu as [Hu Havail].
  split; [now apply in_map|].
  destruct (calculateAvailability users startDate endDate options !! userId u)
    as [slots|] eqn:Hlook; [|discriminate].
  simpl in Havail. unfold isSlotAvailable in Havail.
  apply existsb_exists in Havail as (free & Hfree & Hfit).
  exists slots, free. split; [reflexivity|]. split; [exact Hfree|].
  apply andb_true_iff in Hfit as [H1 H2].
  unfold isBefore, isAfter in *.
  apply negb_true_iff in H1. apply negb_true_iff in H2.
  rewrite Z.gtb_ltb in H2. apply Z.ltb_ge in H1. apply Z.ltb_ge in H2.
  unfold within. cbn [start end_]. lia.
Qed.

Lemma suggestion_participants_free_witness :
  sugEnd {| sugStart := at_ monday 14 0; sugEnd := at_ monday 15 0; duration := 60;
            availableParticipants := ["u1"]; confidence := (1#1) / (1#1);
            score := (1#1) / (1#1) * (6#5) * (13#10) |}
  = addMinutes (at_ monday 14 0) 60.
Proof.
  apply (suggestion_participants_free
           [ userWith "u1" [ {| start := at_ monday 10 0; end_ := at_ monday 11 0 |} ]
                      defaultWorkingHours ]
           60 monday monday noOptions
           {| sugStart := at_ monday 14 0; sugEnd := at_ monday 15 0; duration := 60;
              availableParticipants := ["u1"]; confidence := (1#1) / (1#1);
              score := (1#1) / (1#1) * (6#5) * (13#10) |}).
  vm_compute. auto.
Defined.

(** *** The score of a slot *)

Lemma share_nonneg (availableCount totalCount : nat) :
  (0 <= Qmake (Z.of_nat availableCount) 1 / Qmake (Z.of_nat totalCount) 1)%Q.
Proof.
  destruct totalCount as [|n].
  - unfold Qdiv, Qinv. simpl. unfold Qle, Qmult. simpl. lia.
  - unfold Qdiv, Qinv, Qmult, Qle. simpl. lia.
Qed.

(** With at least one user, the preferences for the time of day keep the
    score between 0.7 times and 1.6 times the share of available users.
    (The factors multiply to 0.72 at the least, for a start at 17:00 or
    later off the hour and half hour, and to 1.56 at the most, for a start
    on the hour between 9:00 and 16:00, 13:00 apart; the bounds leave room
    for the rounding of the products.) *)
Theorem slot_score_range (slot : TimeSlot) (availableCount totalCount : nat) :
  (0 < totalCount)%nat ->
  let share := (Qmake (Z.of_nat availableCount) 1 / Qmake (Z.of_nat totalCount) 1)%Q in
  ((7#10) * share <= calculateSlotScore slot availableCount totalCount)%Q
  /\ (calculateSlotScore slot availableCount totalCount <= (8#5) * share)%Q.
Proof.
  intros _. cbv zeta. unfold calculateSlotScore.
  pose proof (share_nonneg availableCount totalCount) as Hshare.
  set (share := (Qmake (Z.of_nat availableCount) 1 / Qmake (Z.of_nat totalCount) 1)%Q)
    in *.
  generalize (getHours (start slot)) as hour.
  generalize (getMinutes (start slot)) as minute.
  intros minute hour. cbv zeta.
  assert (Hhour : hour < 9 \/ 9 <= hour <= 11 \/ hour = 12 \/ hour = 13
                  \/ 14 <= hour <= 16 \/ 17 <= hour) by lia.
  destruct (minute =? 0); [|destruct (minute =? 30)];
    destruct Hhour as [H|[H|[H|[H|[H|H]]]]];
    repeat match goal with
           | |- context [?a <=? ?b] =>
               destruct (Z.leb_spec a b); try (exfalso; lia)
           | |- context [?a <? ?b] =>
               destruct (Z.ltb_spec a b); try (exfalso; lia)
           | |- context [(?a =? ?b)%Z] =>
               destruct (Z.eqb_spec a b); try (exfalso; lia)
           end;
    simpl; split; lra.
Qed.

(** Seven users of eight at 09:00. *)
Lemma slot_score_range_witness :
  ((7#10) * ((7#1) / (8#1))
   <= calculateSlotScore {| start := at_ monday 9 0; end_ := at_ monday 10 0 |} 7 8)%Q
  /\ (calculateSlotScore {| start := at_ monday 9 0; end_ := at_ monday 10 0 |} 7 8
      <= (8#5) * ((7#1) / (8#1)))%Q.
Proof.
  apply (slot_score_range {| start := at_ monday 9 0; end_ := at_ monday 10 0 |}
                          7%nat 8%nat).
  lia.
Defined.

(** *** The optimal meeting time *)

Lemma boostPreferred_none (s : MeetingSuggestion) : boostPreferred [] s = s.
Proof. reflexivity. Qed.

Lemma sorted_head_best (l : list MeetingSuggestion) (best : MeetingSuggestion) :
  StronglySorted (fun a b => (score b <= score a)%Q) l ->
  head l = Some best ->
  In best l /\ forall s, In s l -> (score s <= score best)%Q.
Proof.
  intros Hsorted Hhead. destruct l as [|a l]; [discriminate|].
  injection Hhead as ->. split; [now left|].
  intros s [<-|Hs]; [apply Qle_refl|].
  apply StronglySorted_inv in Hsorted as [_ Hall].
  rewrite List.Forall_forall in Hall. now apply Hall.
Qed.

(** [findOptimalMeetingTime] answers nothing exactly when there is no
    suggestion.  Otherwise its answer is one of the (at most ten)
    suggestions of [suggestMeetingTimes] with the boost of the preferred
    times applied, and no suggestion has, after the boost, a higher score. *)
Theorem optimal_meeting_time users duration startDate endDate preferredTimes options :
  let suggestions := suggestMeetingTimes users duration startDate endDate options in
  let boost := boostPreferred (default [] preferredTimes) in
  match findOptimalMeetingTime users duration startDate endDate preferredTimes options with
  | None => suggestions = []
  | Some best =>
      (exists s, In s suggestions /\ best = boost s)
      /\ (forall s, In s suggestions -> (score (boost s) <= score best)%Q)
  end.
Proof.
  cbv zeta. unfold findOptimalMeetingTime.
  assert (Hsorted : StronglySorted (fun a b => (score b <= score a)%Q)
                      (suggestMeetingTimes users duration startDate endDate options))
    by (unfold suggestMeetingTimes; apply StronglySorted_prefix, sorted_by_score).
  destruct (suggestMeetingTimes users duration startDate endDate options)
    as [|s0 rest] eqn:Hsug; [reflexivity|].
  assert (Hplain :
            match head (s0 :: rest) with
            | None => s0 :: rest = []
            | Some best =>
                (exists s, In s (s0 :: rest) /\ best = boostPreferred [] s)
                /\ (forall s, In s (s0 :: rest) ->
                              (score (boostPreferred [] s) <= score best)%Q)
            end).
  { destruct (sorted_head_best (s0 :: rest) s0 Hsorted eq_refl) as [Hin Hbest].
    simpl head. split; [exists s0; auto | exact Hbest]. }
  destruct preferredTimes as [times|]; [|exact Hplain].
  destruct times as [|t times]; [exact Hplain|].
  cbn [length Nat.ltb Nat.leb default].
  set (times' := t :: times).
  pose proof (sorted_by_score (map (boostPreferred times') (s0 :: rest))) as Hs.
  pose proof (sort_perm (fun a b => Qle_bool (score b) (score a))
                (map (boostPreferred times') (s0 :: rest))) as Hperm.
  destruct (head (sort _ (map (boostPreferred times') (s0 :: rest)))) as [best|] eqn:Hh.
  - destruct (sorted_head_best _ best Hs Hh) as [Hin Hbest]. split.
    + apply (Permutation_in _ (Permutation_sym Hperm)) in Hin.
      apply in_map_iff in Hin as (s & <- & Hs'). exists s. auto.
    + intros s Hs'. apply Hbest.
      apply (Permutation_in _ Hperm). now apply in_map.
  - apply Permutation_length in Hperm.
    destruct (sort _ _); [discriminate Hperm | discriminate Hh].
Qed.

End AvailabilityFurther.

(** ** The conflict detector, continued *)

Section ConflictFurther.
Import Js Conflicts Vocabulary.
Local Open Scope string_scope.
Local Open Scope Z_scope.

Lemma reported_overlap_classified_witness :
  (overlap, low)
  = classifyOverlap (event "a" "work" true (at_ monday 9 0) (at_ monday 10 0))
                    (event "b" "home" false (at_ monday 9 40) (at_ monday 10 40))
  /\ Some 20
     = Some (overlapMinutes (event "a" "work" true (at_ monday 9 0) (at_ monday 10 0))
                            (event "b" "home" false (at_ monday 9 40)
                                   (at_ monday 10 40))).
Proof.
  apply (reported_overlap_classified
           [ event "c" "work" true (at_ monday 7 0) (at_ monday 8 0);
             event "b" "home" false (at_ monday 9 40) (at_ monday 10 40);
             event "a" "work" true (at_ monday 9 0) (at_ monday 10 0) ]
           noOptions
           {| conflictId := "conflict_a_b"; type := overlap; severity := low;
              primaryEvent := event "a" "work" true (at_ monday 9 0) (at_ monday 10 0);
              conflictingEvent :=
                event "b" "home" false (at_ monday 9 40) (at_ monday 10 40);
              overlapDuration := Some 20 |}).
  - vm_compute. auto.
  - vm_compute. reflexivity.
Defined.

Lemma later_event_misses_travel_time_witness :
  detectConflictsForEvent
    (event "b" "home" true (at_ monday 10 0) (at_ monday 11 0))
    [ event "a" "work" true (at_ monday 9 0) (at_ monday 10 0) ] noOptions = [].
Proof.
  apply (later_event_misses_travel_time
           (event "a" "work" true (at_ monday 9 0) (at_ monday 10 0))
           (event "b" "home" true (at_ monday 10 0) (at_ monday 11 0)) noOptions).
  - vm_compute. reflexivity.
  - vm_compute. reflexivity.
  - vm_compute. discriminate.
  - reflexivity.
Defined.

(** *** What a conflict can say *)

Lemma detect_possibleVerdict (e1 e2 : Event) (opts : ConflictDetectionOptions)
    (c : Conflict) :
  detectConflictBetweenEvents e1 e2 opts = Some c ->
  possibleVerdict c
  /\ conflictId c = mkId e1 e2
  /\ ((primaryEvent c = e1 /\ conflictingEvent c = e2)
      \/ (primaryEvent c = e2 /\ conflictingEvent c = e1)).
Proof.
  unfold detectConflictBetweenEvents. intros Hd.
  destruct (checkOverlap e1 e2) as [c'|] eqn:Hov.
  { injection Hd as ->. unfold checkOverlap in Hov.
    destruct (intervalsOverlap e1 e2); [|discriminate].
    destruct ((startTime e1 =? startTime e2)%Z && (endTime e1 =? endTime e2)%Z);
      [|destruct (Qlt_bool _ _); [|destruct (30 <? _)]];
      injection Hov as <-; (split; [|auto]);
      solve [ apply verdict_double; simpl; eauto
            | apply verdict_overlap; simpl; eauto; discriminate ]. }
  assert (Hsep : (if default false (workPersonalSeparation opts)
                  then checkWorkPersonalSeparation e1 e2 else None) = Some c ->
                 possibleVerdict c /\ conflictId c = mkId e1 e2
                 /\ ((primaryEvent c = e1 /\ conflictingEvent c = e2)
                     \/ (primaryEvent c = e2 /\ conflictingEvent c = e1))).
  { destruct (default false _); [|discriminate].
    unfold checkWorkPersonalSeparation.
    destruct (negb _); [|discriminate]. destruct (_ || _); [|discriminate].
    intros [= <-]. split; [apply verdict_separation; reflexivity|].
    simpl. destruct (isWork e1); auto. }
  destruct (backToBackEnabled opts); [|now apply Hsep].
  destruct (checkBackToBack e1 e2 _) as [c'|] eqn:Hb; [|now apply Hsep].
  injection Hd as ->. unfold checkBackToBack in Hb.
  destruct (Qle_bool _ _ && Qlt_bool _ _); [|discriminate].
  injection Hb as <-. split; [|auto].
  apply verdict_travel; simpl; [reflexivity | | reflexivity].
  destruct (Qeq_bool _ _); [|destruct (Qlt_bool _ _)]; auto.
Qed.

Lemma detectConflictsForEvent_In (newEvent : Event) (existingEvents : list Event)
    (options : ConflictDetectionOptions) (c : Conflict) :
  In c (detectConflictsForEvent newEvent existingEvents options) ->
  exists e, In e existingEvents /\ id e <> id newEvent
            /\ detectConflictBetweenEvents newEvent e
                 (mergeOptions defaultOptions options) = Some c.
Proof.
  unfold detectConflictsForEvent. intros Hc.
  apply in_flat_map in Hc as (e & He & Hc).
  destruct (String.eqb_spec (id e) (id newEvent)) as [|Hid]; [destruct Hc|].
  destruct (detectConflictBetweenEvents newEvent e _) as [c'|] eqn:Hd; [|destruct Hc].
  destruct Hc as [<-|[]]. exists e. auto.
Qed.

(** Whatever the events and the options, both entry points only return
    conflicts of these kinds: a critical double booking with an overlap
    duration; an overlap of lower severity with an overlap duration; a
    travel_time conflict of severity medium or low without overlap duration;
    or the work/personal conflict, an overlap of severity medium without
    overlap duration.  The type back_to_back is never produced, critical
    goes with double_booking only, and high with overlap only. *)
Theorem reported_verdicts (events : list Event) (newEvent : Event)
    (options : ConflictDetectionOptions) :
  let shape c :=
    possibleVerdict c
    /\ type c <> back_to_back
    /\ (severity c = critical <-> type c = double_booking)
    /\ (severity c = high -> type c = overlap) in
  Forall shape (detectConflicts events options)
  /\ Forall shape (detectConflictsForEvent newEvent events options).
Proof.
  cbv zeta.
  assert (Hshape : forall c, possibleVerdict c ->
             possibleVerdict c
             /\ type c <> back_to_back
             /\ (severity c = critical <-> type c = double_booking)
             /\ (severity c = high -> type c = overlap)).
  { intros c Hc. split; [exact Hc|].
    destruct Hc as [c Ht Hs _|c Ht Hs _|c Ht [Hs|Hs] _|c Ht Hs _];
      rewrite Ht, ?Hs; repeat split; try congruence; try discriminate;
      intros; try congruence; exfalso; congruence. }
  split; apply List.Forall_forall; intros c Hc; apply Hshape.
  - unfold detectConflicts, deduplicateConflicts in Hc.
    apply dedupLoop_In, pairLoop_In in Hc as (e1 & e2 & _ & _ & _ & Hd).
    now apply detect_possibleVerdict in Hd.
  - apply detectConflictsForEvent_In in Hc as (e & _ & _ & Hd).
    now apply detect_possibleVerdict in Hd.
Qed.

(** The severity that the conflicts route stores for a detected conflict is
    the severity of the conflict: the special case it makes of
    double_booking changes nothing. *)
Theorem stored_severity_is_severity (events : list Event)
    (options : ConflictDetectionOptions) :
  Forall (fun c => recordSeverity c = severity c) (detectConflicts events options).
Proof.
  apply List.Forall_forall. intros c Hc.
  unfold detectConflicts, deduplicateConflicts in Hc.
  apply dedupLoop_In, pairLoop_In in Hc as (e1 & e2 & _ & _ & _ & Hd).
  apply detect_possibleVerdict in Hd as [Hv _].
  unfold recordSeverity.
  destruct Hv as [c Ht Hs _|c Ht Hs _|c Ht [Hs|Hs] _|c Ht Hs _];
    rewrite Ht, ?Hs; try reflexivity.
  destruct (severity c); congruence.
Qed.

(** *** Statistics *)

Lemma stats_fold (conflicts : list Conflict) :
  forall init : ConflictStats,
    let r := fold_left (fun stats conflict =>
                 {| total := total stats;
                    bySeverity := bumpSeverity (severity conflict) (bySeverity stats);
                    byType := bumpType (type conflict) (byType stats) |})
               conflicts init in
    total r = total init
    /\ nLow (bySeverity r) = (nLow (bySeverity init) + countSeverity low conflicts)%nat
    /\ nMedium (bySeverity r)
       = (nMedium (bySeverity init) + countSeverity medium conflicts)%nat
    /\ nHigh (bySeverity r) = (nHigh (bySeverity init) + countSeverity high conflicts)%nat
    /\ nCritical (bySeverity r)
       = (nCritical (bySeverity init) + countSeverity critical conflicts)%nat
    /\ nOverlap (byType r) = (nOverlap (byType init) + countType overlap conflicts)%nat
    /\ nDoubleBooking (byType r)
       = (nDoubleBooking (byType init) + countType double_booking conflicts)%nat
    /\ nBackToBack (byType r)
       = (nBackToBack (byType init) + countType back_to_back conflicts)%nat
    /\ nTravelTime (byType r)
       = (nTravelTime (byType init) + countType travel_time conflicts)%nat.
Proof.
  induction conflicts as [|c rest IH]; intros init; cbv zeta.
  - unfold countSeverity, countType. simpl. repeat split; lia.
  - simpl fold_left.
    specialize (IH {| total := total init;
                      bySeverity := bumpSeverity (severity c) (bySeverity init);
                      byType := bumpType (type c) (byType init) |}).
    cbv zeta in IH. destruct IH as (H0 & H1 & H2 & H3 & H4 & H5 & H6 & H7 & H8).
    rewrite H0, H1, H2, H3, H4, H5, H6, H7, H8.
    unfold countSeverity, countType. cbn [List.filter].
    destruct (severity c), (type c); cbn; repeat split; lia.
Qed.

Lemma count_partition_severity (l : list Conflict) :
  (countSeverity low l + countSeverity medium l + countSeverity high l
   + countSeverity critical l = length l)%nat.
Proof.
  unfold countSeverity. induction l as [|c l IH]; simpl; [reflexivity|].
  destruct (severity c); simpl; lia.
Qed.

Lemma count_partition_type (l : list Conflict) :
  (countType overlap l + countType double_booking l + countType back_to_back l
   + countType travel_time l = length l)%nat.
Proof.
  unfold countType. induction l as [|c l IH]; simpl; [reflexivity|].
  destruct (type c); simpl; lia.
Qed.

Lemma highPriority_count (l : list Conflict) :
  highPriorityConflicts l = (countSeverity high l + countSeverity critical l)%nat.
Proof.
  unfold highPriorityConflicts, countSeverity.
  induction l as [|c l IH]; simpl; [reflexivity|].
  destruct (severity c); simpl; lia.
Qed.

(** The statistics are consistent: the total is the number of conflicts,
    and so are the sum of the four severity counters and the sum of the four
    type counters; the number of high-priority conflicts that the route
    reports is the sum of the counters high and critical. *)
Theorem stats_add_up (conflicts : list Conflict) :
  let stats := getConflictStats conflicts in
  total stats = length conflicts
  /\ (nLow (bySeverity stats) + nMedium (bySeverity stats)
      + nHigh (bySeverity stats) + nCritical (bySeverity stats)
      = length conflicts)%nat
  /\ (nOverlap (byType stats) + nDoubleBooking (byType stats)
      + nBackToBack (byType stats) + nTravelTime (byType stats)
      = length conflicts)%nat
  /\ highPriorityConflicts conflicts
     = (nHigh (bySeverity stats) + nCritical (bySeverity stats))%nat.
Proof.
  cbv zeta. unfold getConflictStats.
  destruct (stats_fold conflicts
              {| total := length conflicts;
                 bySeverity := {| nLow := 0; nMedium := 0; nHigh := 0; nCritical := 0 |};
                 byType := {| nOverlap := 0; nDoubleBooking := 0;
                              nBackToBack := 0; nTravelTime := 0 |} |})
    as (H0 & H1 & H2 & H3 & H4 & H5 & H6 & H7 & H8).
  cbv zeta in *. rewrite H0, H1, H2, H3, H4, H5, H6, H7, H8. simpl.
  pose proof (count_partition_severity conflicts).
  pose proof (count_partition_type conflicts).
  rewrite highPriority_count. repeat split; lia.
Qed.

Lemma count_zero {A} (f : A -> bool) (l : list A) :
  Forall (fun x => f x = false) l -> length (List.filter f l) = 0%nat.
Proof.
  induction 1 as [|x l Hx _ IH]; simpl; [reflexivity|]. now rewrite Hx.
Qed.

Lemma count_same {A} (f g : A -> bool) (l : list A) :
  Forall (fun x => f x = g x) l -> length (List.filter f l) = length (List.filter g l).
Proof.
  induction 1 as [|x l Hx _ IH]; simpl; [reflexivity|].
  rewrite Hx. destruct (g x); simpl; lia.
Qed.

(** In the statistics of what [detectConflicts] returns, the counter
    back_to_back is 0, and the counter critical equals the counter
    double_booking. *)
Theorem stats_of_detected (events : list Event) (options : ConflictDetectionOptions) :
  let stats := getConflictStats (detectConflicts events options) in
  nBackToBack (byType stats) = 0%nat
  /\ nCritical (bySeverity stats) = nDoubleBooking (byType stats).
Proof.
  cbv zeta. unfold getConflictStats.
  set (l := detectConflicts events options).
  destruct (stats_fold l
              {| total := length l;
                 bySeverity := {| nLow := 0; nMedium := 0; nHigh := 0; nCritical := 0 |};
                 byType := {| nOverlap := 0; nDoubleBooking := 0;
                              nBackToBack := 0; nTravelTime := 0 |} |})
    as (_ & _ & _ & _ & H4 & _ & H6 & H7 & _).
  cbv zeta in *. rewrite H4, H6, H7. simpl.
  assert (Hshape : Forall possibleVerdict l).
  { apply List.Forall_forall. intros c Hc. unfold l in Hc.
    unfold detectConflicts, deduplicateConflicts in Hc.
    apply dedupLoop_In, pairLoop_In in Hc as (e1 & e2 & _ & _ & _ & Hd).
    now apply detect_possibleVerdict in Hd. }
  split.
  - unfold countType. apply count_zero.
    eapply List.Forall_impl; [|exact Hshape].
    intros c [c' Ht _ _|c' Ht _ _|c' Ht _ _|c' Ht _ _]; now rewrite Ht.
  - unfold countSeverity, countType. apply count_same.
    eapply List.Forall_impl; [|exact Hshape].
    intros c [c' Ht Hs _|c' Ht Hs _|c' Ht [Hs|Hs] _|c' Ht Hs _];
      rewrite Ht; try rewrite Hs; try reflexivity.
    destruct (severity c'); congruence.
Qed.

(** *** Deduplication, once more *)

Lemma dedupLoop_fixed (conflicts : list Conflict) :
  forall seen : gset string,
    NoDup (conflictKey <$> conflicts) ->
    (forall c, In c conflicts -> conflictKey c ∉ seen) ->
    dedupLoop conflicts seen = conflicts.
Proof.
  induction conflicts as [|c rest IH]; intros seen Hnd Hnew; simpl; [reflexivity|].
  rewrite fmap_cons in Hnd. apply NoDup_cons in Hnd as [Hc Hnd].
  rewrite bool_decide_eq_false_2 by (apply Hnew; now left).
  f_equal. apply IH; [exact Hnd|].
  intros c' Hc' [Hin|Hin]%elem_of_union.
  - apply elem_of_singleton in Hin. apply Hc. rewrite <- Hin.
    apply list_elem_of_fmap. exists c'. split; [reflexivity|].
    now apply list_elem_of_In.
  - apply (Hnew c'); [now right | exact Hin].
Qed.

Lemma dedupLoop_covers (conflicts : list Conflict) :
  forall (seen : gset string) (c : Conflict),
    In c conflicts ->
    conflictKey c ∈ seen
    \/ exists kept, In kept (dedupLoop conflicts seen)
                    /\ conflictKey kept = conflictKey c.
Proof.
  induction conflicts as [|c0 rest IH]; intros seen c Hc; [destruct Hc|].
  simpl. case_bool_decide as Hseen.
  - destruct Hc as [<-|Hc]; [now left | now apply IH].
  - destruct Hc as [<-|Hc].
    + right. exists c0. split; [now left | reflexivity].
    + destruct (IH ({[ conflictKey c0 ]} ∪ seen) c Hc) as [Hin|(kept & Hk & Heq)].
      * apply elem_of_union in Hin as [Hin|Hin]; [|now left].
        apply elem_of_singleton in Hin. right. exists c0. split; [now left | auto].
      * right. exists kept. split; [now right | exact Heq].
Qed.

(** Deduplicating twice is deduplicating once; what is kept comes from the
    list; and no key is lost: a conflict that is dropped has the key of a
    conflict that is kept. *)
Theorem deduplicate_properties (conflicts : list Conflict) :
  deduplicateConflicts (deduplicateConflicts conflicts) = deduplicateConflicts conflicts
  /\ (forall c, In c (deduplicateConflicts conflicts) -> In c conflicts)
  /\ (forall c, In c conflicts ->
        exists kept, In kept (deduplicateConflicts conflicts)
                     /\ conflictKey kept = conflictKey c).
Proof.
  unfold deduplicateConflicts. repeat split.
  - destruct (dedupLoop_keys conflicts ∅) as [Hnd _].
    apply dedupLoop_fixed; [exact Hnd|]. intros c _. apply not_elem_of_empty.
  - intros c. apply dedupLoop_In.
  - intros c Hc. destruct (dedupLoop_covers conflicts ∅ c Hc) as [Hin|H]; [|exact H].
    now apply not_elem_of_empty in Hin.
Qed.

(** *** Where a conflict comes from *)

Lemma pairLoop_In_sorted (R : Event -> Event -> Prop) (sortedEvents : list Event)
    (opts : ConflictDetectionOptions) (c : Conflict) :
  StronglySorted R sortedEvents ->
  In c (pairLoop sortedEvents opts) ->
  exists e1 e2, In e1 sortedEvents /\ In e2 sortedEvents /\ R e1 e2
                /\ calendarId e1 <> calendarId e2
                /\ detectConflictBetweenEvents e1 e2 opts = Some c.
Proof.
  induction 1 as [|e1 later Hlater IH He1]; simpl; [intros []|].
  intros [Hc|Hc]%in_app_or.
  - unfold conflictsWith in Hc. apply in_flat_map in Hc as (e2 & He2 & Hc).
    destruct (String.eqb_spec (calendarId e1) (calendarId e2)) as [|Hcal];
      [destruct Hc|].
    destruct (detectConflictBetweenEvents e1 e2 opts) as [c'|] eqn:Hd;
      [|destruct Hc].
    destruct Hc as [<-|[]]. exists e1, e2.
    rewrite List.Forall_forall in He1.
    split; [now left|]. split; [now right|]. split; [now apply He1|]. auto.
  - destruct (IH Hc) as (a & b & Ha & Hb & Hab & Hrest). exists a, b.
    split; [now right|]. split; [now right|]. auto.
Qed.

(** A conflict reported by [detectConflicts] is between two events of the
    list that belong to different calendars; its id is built from the ids of
    the two, the one that does not start later coming first; and the two
    events are its primary and its conflicting event, in one order or the
    other. *)
Theorem reported_conflict_origin (events : list Event)
    (options : ConflictDetectionOptions) (c : Conflict) :
  In c (detectConflicts events options) ->
  exists e1 e2,
    In e1 events /\ In e2 events
    /\ startTime e1 <= startTime e2
    /\ calendarId e1 <> calendarId e2
    /\ conflictId c = mkId e1 e2
    /\ ((primaryEvent c = e1 /\ conflictingEvent c = e2)
        \/ (primaryEvent c = e2 /\ conflictingEvent c = e1)).
Proof.
  intros Hc. unfold detectConflicts, deduplicateConflicts in Hc.
  apply dedupLoop_In in Hc.
  pose proof (sort_StronglySorted (fun a b : Event => startTime a <=? startTime b)) as Hs.
  specialize (Hs ltac:(intros a b H; apply Z.leb_gt in H; apply Z.leb_le; lia)
                 ltac:(intros a b x H1 H2;
                       apply Z.leb_le in H1; apply Z.leb_le in H2;
                       apply Z.leb_le; lia) events).
  destruct (pairLoop_In_sorted _ _ _ _ Hs Hc) as (e1 & e2 & H1 & H2 & Hle & Hcal & Hd).
  apply detect_possibleVerdict in Hd as (_ & Hid & Hpair).
  exists e1, e2.
  pose proof (sort_perm (fun a b : Event => startTime a <=? startTime b) events)
    as Hperm.
  repeat split; auto.
  - now apply (Permutation_in _ (Permutation_sym Hperm)).
  - now apply (Permutation_in _ (Permutation_sym Hperm)).
  - now apply Z.leb_le.
Qed.

Lemma reported_conflict_origin_witness :
  exists e1 e2,
    In e1 [ event "b" "home" true (at_ monday 10 0) (at_ monday 11 0);
            event "a" "work" true (at_ monday 9 0) (at_ monday 10 0) ]
    /\ In e2 [ event "b" "home" true (at_ monday 10 0) (at_ monday 11 0);
               event "a" "work" true (at_ monday 9 0) (at_ monday 10 0) ]
    /\ startTime e1 <= startTime e2
    /\ calendarId e1 <> calendarId e2
    /\ "conflict_a_b" = mkId e1 e2
    /\ ((event "a" "work" true (at_ monday 9 0) (at_ monday 10 0) = e1
         /\ event "b" "home" true (at_ monday 10 0) (at_ monday 11 0) = e2)
        \/ (event "a" "work" true (at_ monday 9 0) (at_ monday 10 0) = e2
            /\ event "b" "home" true (at_ monday 10 0) (at_ monday 11 0) = e1)).
Proof.
  apply (reported_conflict_origin
           [ event "b" "home" true (at_ monday 10 0) (at_ monday 11 0);
             event "a" "work" true (at_ monday 9 0) (at_ monday 10 0) ]
           noOptions
           {| conflictId := "conflict_a_b"; type := travel_time; severity := medium;
              primaryEvent := event "a" "work" true (at_ monday 9 0) (at_ monday 10 0);
              conflictingEvent :=
                event "b" "home" true (at_ monday 10 0) (at_ monday 11 0);
              overlapDuration := None |}).
  vm_compute. auto.
Defined.

(** A conflict reported by [detectConflictsForEvent] pairs the new event,
    named first in its id, with an existing event of another id. *)
Theorem single_event_conflict_origin (newEvent : Event) (existingEvents : list Event)
    (options : ConflictDetectionOptions) (c : Conflict) :
  In c (detectConflictsForEvent newEvent existingEvents options) ->
  exists e,
    In e existingEvents /\ id e <> id newEvent
    /\ conflictId c = mkId newEvent e
    /\ ((primaryEvent c = newEvent /\ conflictingEvent c = e)
        \/ (primaryEvent c = e /\ conflictingEvent c = newEvent)).
Proof.
  intros Hc. apply detectConflictsForEvent_In in Hc as (e & He & Hid & Hd).
  apply detect_possibleVerdict in Hd as (_ & Hcid & Hpair).
  exists e. auto.
Qed.

Lemma single_event_conflict_origin_witness :
  exists e,
    In e [ event "b" "home" true (at_ monday 10 0) (at_ monday 11 0) ]
    /\ id e <> "a"
    /\ "conflict_a_b" = mkId (event "a" "work" true (at_ monday 9 0) (at_ monday 10 0)) e
    /\ ((event "a" "work" true (at_ monday 9 0) (at_ monday 10 0)
         = event "a" "work" true (at_ monday 9 0) (at_ monday 10 0)
         /\ event "b" "home" true (at_ monday 10 0) (at_ monday 11 0) = e)
        \/ (event "a" "work" true (at_ monday 9 0) (at_ monday 10 0) = e
            /\ event "b" "home" true (at_ monday 10 0) (at_ monday 11 0)
               = event "a" "work" true (at_ monday 9 0) (at_ monday 10 0))).
Proof.
  apply (single_event_conflict_origin
           (event "a" "work" true (at_ monday 9 0) (at_ monday 10 0))
           [ event "b" "home" true (at_ monday 10 0) (at_ monday 11 0) ]
           noOptions
           {| conflictId := "conflict_a_b"; type := travel_time; severity := medium;
              primaryEvent := event "a" "work" true (at_ monday 9 0) (at_ monday 10 0);
              conflictingEvent :=
                event "b" "home" true (at_ monday 10 0) (at_ monday 11 0);
              overlapDuration := None |}).
  vm_compute. auto.
Defined.

(** *** Calendars *)

Lemma reported_conflict_origin_aux (events : list Event)
    (options : ConflictDetectionOptions) (c : Conflict) :
  In c (detectConflicts events options) ->
  exists e1 e2, In e1 events /\ In e2 events /\ calendarId e1 <> calendarId e2.
Proof.
  intros Hc. unfold detectConflicts, deduplicateConflicts in Hc.
  apply dedupLoop_In, pairLoop_In in Hc as (e1 & e2 & H1 & H2 & Hcal & _).
  pose proof (sort_perm (fun a b : Event => startTime a <=? startTime b) events)
    as Hperm.
  exists e1, e2. repeat split; auto;
    now apply (Permutation_in _ (Permutation_sym Hperm)).
Qed.

Lemma same_calendar_silent (events : list Event)
    (options : ConflictDetectionOptions) :
  (forall e1 e2, In e1 events -> In e2 events -> calendarId e1 = calendarId e2) ->
  detectConflicts events options = [].
Proof.
  intros Hsame.
  destruct (detectConflicts events options) as [|c rest] eqn:Hd; [reflexivity|].
  assert (Hc : In c (detectConflicts events options)) by (rewrite Hd; now left).
  apply reported_conflict_origin_aux in Hc as (e1 & e2 & H1 & H2 & Hcal).
  exfalso. apply Hcal. now apply Hsame.
Qed.

(** Events that all belong to one calendar give no conflict, whatever their
    times. *)
Theorem one_calendar_no_conflict (events : list Event)
    (options : ConflictDetectionOptions) :
  (forall e1 e2, In e1 events -> In e2 events -> calendarId e1 = calendarId e2) ->
  detectConflicts events options = [].
Proof. apply same_calendar_silent. Qed.

Lemma one_calendar_no_conflict_witness :
  detectConflicts [ event "a" "work" true (at_ monday 9 0) (at_ monday 10 0);
                    event "b" "work" true (at_ monday 9 0) (at_ monday 10 0) ]
                  noOptions = [].
Proof.
  apply (one_calendar_no_conflict
           [ event "a" "work" true (at_ monday 9 0) (at_ monday 10 0);
             event "b" "work" true (at_ monday 9 0) (at_ monday 10 0) ] noOptions).
  intros e1 e2 [<-|[<-|[]]] [<-|[<-|[]]]; reflexivity.
Defined.

(** The check of a single new event does not look at calendars: two
    overlapping events of different ids are reported by it even when they
    share a calendar, where [detectConflicts] stays silent. *)
Theorem single_event_check_ignores_calendars (A B : Event)
    (options : ConflictDetectionOptions) :
  id B <> id A ->
  calendarId A = calendarId B ->
  startTime A < endTime B ->
  startTime B < endTime A ->
  detectConflicts [A; B] options = []
  /\ exists c, detectConflictsForEvent A [B] options = [c]
       /\ (type c, severity c) = classifyOverlap A B.
Proof.
  intros Hid Hcal H1 H2. split.
  - apply same_calendar_silent.
    intros e1 e2 [<-|[<-|[]]] [<-|[<-|[]]]; congruence.
  - unfold detectConflictsForEvent. simpl.
    apply String.eqb_neq in Hid. rewrite Hid.
    unfold detectConflictBetweenEvents.
    destruct (checkOverlap_fires A B) as (c & -> & Hc & _);
      [now apply intervalsOverlap_open|].
    exists c. auto.
Qed.

Lemma single_event_check_ignores_calendars_witness :
  detectConflicts [ event "a" "work" true (at_ monday 9 0) (at_ monday 10 0);
                    event "b" "work" true (at_ monday 9 0) (at_ monday 10 0) ]
                  noOptions = []
  /\ exists c,
      detectConflictsForEvent
        (event "a" "work" true (at_ monday 9 0) (at_ monday 10 0))
        [ event "b" "work" true (at_ monday 9 0) (at_ monday 10 0) ] noOptions = [c]
      /\ (type c, severity c) = (double_booking, critical).
Proof.
  apply (single_event_check_ignores_calendars
           (event "a" "work" true (at_ monday 9 0) (at_ monday 10 0))
           (event "b" "work" true (at_ monday 9 0) (at_ monday 10 0)) noOptions).
  - simpl. discriminate.
  - reflexivity.
  - vm_compute. reflexivity.
  - vm_compute. reflexivity.
Defined.

(** *** The order of the input *)

Lemma overlap_verdict_sym (A B : Event) (opts : ConflictDetectionOptions) :
  intervalsOverlap A B = true ->
  verdict <$> detectConflictBetweenEvents A B opts
  = verdict <$> detectConflictBetweenEvents B A opts.
Proof.
  intros Hov. unfold detectConflictBetweenEvents.
  destruct (checkOverlap_fires A B Hov) as (c & -> & Hc & Hd & _).
  destruct (checkOverlap_fires B A) as (c' & -> & Hc' & Hd' & _);
    [now rewrite intervalsOverlap_sym|].
  simpl. unfold verdict. f_equal.
  rewrite classifyOverlap_sym in Hc'. rewrite overlapMinutes_sym in Hd'.
  rewrite Hd, Hd'. f_equal.
  congruence.
Qed.

(** For two proper events the verdict of [detectConflicts] (type, severity
    and overlap duration) does not depend on the order in which the two are
    given. *)
Theorem pair_order_irrelevant (A B : Event) (options : ConflictDetectionOptions) :
  properEvent A -> properEvent B ->
  map verdict (detectConflicts [A; B] options)
  = map verdict (detectConflicts [B; A] options).
Proof.
  unfold properEvent. intros HA HB.
  destruct (String.eqb_spec (calendarId A) (calendarId B)) as [Heq|Hne].
  - rewrite !same_calendar_silent; [reflexivity| |];
      intros e1 e2 [<-|[<-|[]]] [<-|[<-|[]]]; congruence.
  - rewrite (detectConflicts_pair A B) by assumption.
    rewrite (detectConflicts_pair B A) by congruence. cbv zeta.
    destruct (Z.leb_spec (startTime A) (startTime B)) as [Hab|Hab];
      destruct (Z.leb_spec (startTime B) (startTime A)) as [Hba|Hba];
      try reflexivity; try lia.
    assert (Hov : intervalsOverlap A B = true)
      by (apply intervalsOverlap_open; lia).
    pose proof (overlap_verdict_sym A B (mergeOptions defaultOptions options) Hov)
      as Hsym.
    destruct (detectConflictBetweenEvents A B _),
             (detectConflictBetweenEvents B A _); simpl in *; congruence.
Qed.

Lemma pair_order_irrelevant_witness :
  map verdict
      (detectConflicts [ event "a" "work" true (at_ monday 9 0) (at_ monday 10 0);
                         event "b" "home" false (at_ monday 9 0) (at_ monday 9 30) ]
                       noOptions)
  = map verdict
        (detectConflicts [ event "b" "home" false (at_ monday 9 0) (at_ monday 9 30);
                           event "a" "work" true (at_ monday 9 0) (at_ monday 10 0) ]
                         noOptions).
Proof.
  apply (pair_order_irrelevant
           (event "a" "work" true (at_ monday 9 0) (at_ monday 10 0))
           (event "b" "home" false (at_ monday 9 0) (at_ monday 9 30)) noOptions).
  - vm_compute. reflexivity.
  - vm_compute. reflexivity.
Defined.

(** *** Work and personal time *)

(** When the work/personal check fires, the work event is the primary event
    and the personal one the conflicting event, whatever the order of the
    arguments; the work event starts before 9:00 or at 17:00 or later; and
    the check fires for the two events in the other order too, with the same
    primary and conflicting events. *)
Theorem separation_check (e1 e2 : Event) (c : Conflict) :
  checkWorkPersonalSeparation e1 e2 = Some c ->
  isWork (primaryEvent c) = true
  /\ isWork (conflictingEvent c) = false
  /\ (Availability.getHours (startTime (primaryEvent c)) < 9
      \/ 17 <= Availability.getHours (startTime (primaryEvent c)))
  /\ exists c', checkWorkPersonalSeparation e2 e1 = Some c'
                /\ primaryEvent c' = primaryEvent c
                /\ conflictingEvent c' = conflictingEvent c.
Proof.
  assert (Hhours : forall h, (h <? 9) || (17 <=? h) = true -> h < 9 \/ 17 <= h).
  { intros h [H|H]%orb_true_iff; [left; now apply Z.ltb_lt | right; now apply Z.leb_le]. }
  unfold checkWorkPersonalSeparation.
  destruct (isWork e1) eqn:H1, (isWork e2) eqn:H2; simpl; try discriminate.
  - destruct (_ || _) eqn:Hh; [|discriminate]. intros [= <-].
    cbn [primaryEvent conflictingEvent].
    repeat split; auto. eexists. repeat split; reflexivity.
  - destruct (_ || _) eqn:Hh; [|discriminate]. intros [= <-].
    cbn [primaryEvent conflictingEvent].
    repeat split; auto. eexists. repeat split; reflexivity.
Qed.

Lemma separation_check_witness :
  isWork (event "a" "work" true (at_ monday 19 0) (at_ monday 20 0)) = true
  /\ isWork (event "b" "home" false (at_ monday 18 0) (at_ monday 19 0)) = false
  /\ (Availability.getHours (at_ monday 19 0) < 9
      \/ 17 <= Availability.getHours (at_ monday 19 0))
  /\ exists c',
      checkWorkPersonalSeparation
        (event "a" "work" true (at_ monday 19 0) (at_ monday 20 0))
        (event "b" "home" false (at_ monday 18 0) (at_ monday 19 0)) = Some c'
      /\ primaryEvent c' = event "a" "work" true (at_ monday 19 0) (at_ monday 20 0)
      /\ conflictingEvent c' = event "b" "home" false (at_ monday 18 0) (at_ monday 19 0).
Proof.
  apply (separation_check
           (event "b" "home" false (at_ monday 18 0) (at_ monday 19 0))
           (event "a" "work" true (at_ monday 19 0) (at_ monday 20 0))
           {| conflictId := "conflict_b_a"; type := overlap; severity := medium;
              primaryEvent := event "a" "work" true (at_ monday 19 0) (at_ monday 20 0);
              conflictingEvent :=
                event "b" "home" false (at_ monday 18 0) (at_ monday 19 0);
              overlapDuration := None |}).
  vm_compute. reflexivity.
Defined.

(** *** The key of a pair *)

Lemma noUnderscore_split (x x' y y' : string) :
  noUnderscore x -> noUnderscore x' ->
  x +:+ "_" +:+ y = x' +:+ "_" +:+ y' ->
  x = x' /\ y = y'.
Proof.
  unfold noUnderscore. revert x'.
  induction x as [|ch x IH]; intros [|ch' x'] Hx Hx' Heq;
    rewrite ?append_cons, ?append_nil in Heq; simpl in Hx, Hx'.
  - injection Heq as ->. auto.
  - injection Heq as <- _. inversion Hx' as [|? ? Hch _]. now destruct Hch.
  - injection Heq as -> _. inversion Hx as [|? ? Hch _]. now destruct Hch.
  - injection Heq as -> Heq.
    inversion Hx as [|? ? _ Hx1]. inversion Hx' as [|? ? _ Hx1'].
    destruct (IH x' Hx1 Hx1' Heq) as [-> ->]. auto.
Qed.

(** On ids without an underscore the key tells the unordered pair. *)
Lemma pairKey_inj (a b a' b' : string) :
  noUnderscore a -> noUnderscore b -> noUnderscore a' -> noUnderscore b' ->
  pairKey a b = pairKey a' b' ->
  (a = a' /\ b = b') \/ (a = b' /\ b = a').
Proof.
  intros Ha Hb Ha' Hb'. unfold pairKey.
  destruct (String.ltb b a), (String.ltb b' a'); intros Heq;
    apply noUnderscore_split in Heq as [-> ->]; auto.
Qed.

Lemma NoDup_map_eq {A B : Type} (f : A -> B) (l : list A) (x y : A) :
  NoDup (map f l) -> In x l -> In y l -> f x = f y -> x = y.
Proof.
  induction l as [|z l IH]; simpl; [intros _ []|].
  intros Hnd Hx Hy Heq. inversion Hnd as [|? ? Hz Hnd']; subst.
  destruct Hx as [->|Hx], Hy as [->|Hy]; auto.
  - exfalso. apply Hz, list_elem_of_In. rewrite Heq. now apply in_map.
  - exfalso. apply Hz, list_elem_of_In. rewrite <- Heq. now apply in_map.
Qed.

(** The two loops examine every pair of events of different calendars, in
    one order or the other. *)
Lemma pairLoop_complete (sortedEvents : list Event) (opts : ConflictDetectionOptions)
    (A B : Event) :
  In A sortedEvents -> In B sortedEvents -> calendarId A <> calendarId B ->
  exists e1 e2,
    ((e1 = A /\ e2 = B) \/ (e1 = B /\ e2 = A))
    /\ forall c, detectConflictBetweenEvents e1 e2 opts = Some c ->
                 In c (pairLoop sortedEvents opts).
Proof.
  induction sortedEvents as [|x later IH]; [intros []|].
  intros HA HB Hcal. simpl.
  assert (Hhead : forall e c, In e later -> calendarId x <> calendarId e ->
             detectConflictBetweenEvents x e opts = Some c ->
             In c (conflictsWith x later opts ++ pairLoop later opts)).
  { intros e c He Hne Hd. apply in_or_app. left. unfold conflictsWith.
    apply in_flat_map. exists e. split; [exact He|].
    apply String.eqb_neq in Hne. rewrite Hne, Hd. now left. }
  destruct HA as [HA|HA], HB as [HB|HB].
  - exfalso. apply Hcal. congruence.
  - subst x. exists A, B. split; [auto|]. intros c. now apply Hhead.
  - subst x. exists B, A. split; [auto|]. intros c. apply Hhead; [exact HA|].
    congruence.
  - destruct (IH HA HB Hcal) as (e1 & e2 & Hp & Hin). exists e1, e2.
    split; [exact Hp|]. intros c Hd. apply in_or_app. right. now apply Hin.
Qed.

Lemma detected_key (e1 e2 : Event) (opts : ConflictDetectionOptions) (c : Conflict) :
  detectConflictBetweenEvents e1 e2 opts = Some c ->
  conflictKey c = pairKey (id e1) (id e2).
Proof.
  intros Hd. unfold conflictKey.
  apply detect_possibleVerdict in Hd as (_ & _ & [[-> ->]|[-> ->]]).
  - reflexivity.
  - apply pairKey_comm.
Qed.

Lemma detected_overlap (e1 e2 : Event) (opts : ConflictDetectionOptions) (c : Conflict) :
  intervalsOverlap e1 e2 = true ->
  detectConflictBetweenEvents e1 e2 opts = Some c ->
  checkOverlap e1 e2 = Some c
  /\ primaryEvent c = e1 /\ conflictingEvent c = e2.
Proof.
  intros Hov Hd. unfold detectConflictBetweenEvents in Hd.
  destruct (checkOverlap_fires e1 e2 Hov) as (c' & Hc' & _ & _ & Hp & Hq).
  rewrite Hc' in Hd. injection Hd as <-. auto.
Qed.

(** In a list of events with distinct ids, none of which holds an
    underscore, two events of different calendars on which the overlap rule
    fires get exactly one conflict, whatever else the list holds and whatever
    other rule fires for the two: the conflict of the overlap rule. *)
Theorem overlapping_pair_reported_once (events : list Event)
    (options : ConflictDetectionOptions) (A B : Event) :
  NoDup (map id events) ->
  Forall (fun e => noUnderscore (id e)) events ->
  In A events -> In B events ->
  calendarId A <> calendarId B ->
  is_Some (checkOverlap A B) ->
  exists (i : nat) (c : Conflict),
    detectConflicts events options !! i = Some c
    /\ (checkOverlap A B = Some c \/ checkOverlap B A = Some c)
    /\ forall (j : nat) (c' : Conflict),
         detectConflicts events options !! j = Some c' ->
         concerns c' A B -> j = i.
Proof.
  intros Hnd Hids HA HB Hcal [c0 Hc0].
  assert (Hov : intervalsOverlap A B = true).
  { unfold checkOverlap in Hc0. destruct (intervalsOverlap A B); [reflexivity|].
    discriminate. }
  assert (Hov' : intervalsOverlap B A = true) by now rewrite intervalsOverlap_sym.
  pose proof (sort_perm (fun a b : Event => startTime a <=? startTime b) events)
    as Hperm.
  assert (Hback : forall e,
             In e (sort (fun a b : Event => startTime a <=? startTime b) events) ->
             In e events)
    by (intros e; apply (Permutation_in _ (Permutation_sym Hperm))).
  rewrite List.Forall_forall in Hids.
  (* the pair is examined, and the overlap rule answers *)
  destruct (pairLoop_complete
              (sort (fun a b : Event => startTime a <=? startTime b) events)
              (mergeOptions defaultOptions options) A B)
    as (e1 & e2 & Horder & Hin);
    [now apply (Permutation_in _ Hperm) | now apply (Permutation_in _ Hperm)
     | exact Hcal |].
  assert (Hov12 : intervalsOverlap e1 e2 = true)
    by (destruct Horder as [[-> ->]|[-> ->]]; assumption).
  destruct (checkOverlap_fires e1 e2 Hov12) as (c1 & Hc1 & _).
  assert (Hd1 : detectConflictBetweenEvents e1 e2 (mergeOptions defaultOptions options)
                = Some c1)
    by (unfold detectConflictBetweenEvents; now rewrite Hc1).
  assert (Hkey1 : conflictKey c1 = pairKey (id A) (id B)).
  { rewrite (detected_key _ _ _ _ Hd1).
    destruct Horder as [[-> ->]|[-> ->]]; [reflexivity | apply pairKey_comm]. }
  (* a conflict of the same key is kept *)
  destruct (dedupLoop_covers _ ∅ c1 (Hin c1 Hd1)) as [Hseen|(kept & Hkept & Hkey)];
    [now apply not_elem_of_empty in Hseen|].
  fold (deduplicateConflicts
          (pairLoop (sort (fun a b : Event => startTime a <=? startTime b) events)
                    (mergeOptions defaultOptions options))) in Hkept.
  fold (detectConflicts events options) in Hkept.
  (* and it is the conflict of the two events *)
  assert (Hfrom : (checkOverlap A B = Some kept
                   /\ primaryEvent kept = A /\ conflictingEvent kept = B)
                  \/ (checkOverlap B A = Some kept
                      /\ primaryEvent kept = B /\ conflictingEvent kept = A)).
  { pose proof Hkept as Hk. unfold detectConflicts, deduplicateConflicts in Hk.
    apply dedupLoop_In, pairLoop_In in Hk as (x & y & Hx & Hy & _ & Hd).
    apply Hback in Hx, Hy.
    pose proof (detected_key _ _ _ _ Hd) as Hxy.
    rewrite Hkey, Hkey1 in Hxy. symmetry in Hxy.
    apply pairKey_inj in Hxy; auto.
    destruct Hxy as [[Hxa Hyb]|[Hxb Hya]].
    - apply (NoDup_map_eq id events x A Hnd Hx HA) in Hxa.
      apply (NoDup_map_eq id events y B Hnd Hy HB) in Hyb. subst x y.
      left.
      now apply (detected_overlap A B (mergeOptions defaultOptions options) kept).
    - apply (NoDup_map_eq id events x B Hnd Hx HB) in Hxb.
      apply (NoDup_map_eq id events y A Hnd Hy HA) in Hya. subst x y.
      right.
      now apply (detected_overlap B A (mergeOptions defaultOptions options) kept). }
  apply list_elem_of_In, list_elem_of_lookup_1 in Hkept as [i Hi].
  exists i, kept. split; [exact Hi|]. split.
  - destruct Hfrom as [[H _]|[H _]]; auto.
  - intros j c' Hj Hconcerns.
    apply (no_two_conflicts_per_pair events options j i c' kept Hj Hi).
    unfold sameEventPair, concerns in *. cbv zeta.
    destruct Hfrom as [(_ & -> & ->)|(_ & -> & ->)];
      destruct Hconcerns as [[-> ->]|[-> ->]]; auto.
Qed.

(** A third event earlier in the day and the two overlapping events given
    in the opposite order of their start times. *)
Lemma overlapping_pair_reported_once_witness :
  exists (i : nat) (c : Conflict),
    detectConflicts
      [ event "c" "home" true (at_ monday 8 50) (at_ monday 9 10);
        event "b" "home" false (at_ monday 9 40) (at_ monday 10 40);
        event "a" "work" true (at_ monday 9 0) (at_ monday 10 0) ]
      noOptions !! i = Some c
    /\ (checkOverlap (event "a" "work" true (at_ monday 9 0) (at_ monday 10 0))
                     (event "b" "home" false (at_ monday 9 40) (at_ monday 10 40))
        = Some c
        \/ checkOverlap (event "b" "home" false (at_ monday 9 40) (at_ monday 10 40))
                        (event "a" "work" true (at_ monday 9 0) (at_ monday 10 0))
           = Some c)
    /\ forall (j : nat) (c' : Conflict),
         detectConflicts
           [ event "c" "home" true (at_ monday 8 50) (at_ monday 9 10);
             event "b" "home" false (at_ monday 9 40) (at_ monday 10 40);
             event "a" "work" true (at_ monday 9 0) (at_ monday 10 0) ]
           noOptions !! j = Some c' ->
         concerns c' (event "a" "work" true (at_ monday 9 0) (at_ monday 10 0))
                     (event "b" "home" false (at_ monday 9 40) (at_ monday 10 40)) ->
         j = i.
Proof.
  apply (overlapping_pair_reported_once
           [ event "c" "home" true (at_ monday 8 50) (at_ monday 9 10);
             event "b" "home" false (at_ monday 9 40) (at_ monday 10 40);
             event "a" "work" true (at_ monday 9 0) (at_ monday 10 0) ]
           noOptions
           (event "a" "work" true (at_ monday 9 0) (at_ monday 10 0))
           (event "b" "home" false (at_ monday 9 40) (at_ monday 10 40))).
  - simpl.
    repeat (apply NoDup_cons_2;
            [rewrite list_elem_of_In; simpl; intuition discriminate|]).
    apply NoDup_nil_2.
  - repeat constructor; discriminate.
  - simpl. auto.
  - simpl. auto.
  - simpl. discriminate.
  - vm_compute. eauto.
Defined.

End ConflictFurther.
